(** * scan2webdav: the file-intake pipeline of [scan2webdav.go]

    A shallow embedding of [uploadFile], [processFile], [processDir] and the
    start-up part of [main].  The program is a sequence of system calls, so
    it is embedded in a small state monad over a [World] (the file system
    and the trace of observable actions) whose results distinguish a normal
    return, [log.Fatal] (which is [os.Exit(1)]: deferred calls do not run)
    and a run-time panic (deferred calls run, then the process dies).

    What the operating system, the OCR executable and the HTTP server answer
    is not decided by the program: those answers are the fields of [Env].
    The library functions the program calls and whose results the properties
    depend on ([filepath.Base], [filepath.Join], [filepath.Walk],
    [shlex.Split], the [mime/multipart] writer) are embedded next to it. *)

From Stdlib Require Import ZArith Ascii String List.
From stdpp Require Import gmap strings list fin_maps.

Local Open Scope string_scope.
Local Open Scope Z_scope.

(** ** Characters and strings *)

Definition dquote : ascii := ascii_of_nat 34.
Definition tab : ascii := ascii_of_nat 9.
Definition lf : ascii := ascii_of_nat 10.
Definition cr : ascii := ascii_of_nat 13.

Definition chars (s : string) : list ascii := list_ascii_of_string s.
Definition str (l : list ascii) : string := string_of_list_ascii l.

Definition is_sep (c : ascii) : bool := Ascii.eqb c "/".

(** [strings.ContainsAny s set] *)
Definition ContainsAny (s set : string) : bool :=
  existsb (fun c => existsb (Ascii.eqb c) (chars set)) (chars s).

(** [fmt] prints a slice of strings as [[a b c]]. *)
Definition fmt_slice (l : list string) : string :=
  "[" +:+ String.concat " " l +:+ "]".

(** ** [path/filepath] (Unix) *)

Module filepath.

Fixpoint drop_seps (l : list ascii) : list ascii :=
  match l with
  | c :: l' => if is_sep c then drop_seps l' else l
  | [] => []
  end.

Fixpoint take_elem (l : list ascii) : list ascii :=
  match l with
  | c :: l' => if is_sep c then [] else c :: take_elem l'
  | [] => []
  end.

(** [Base]: the last element of the path, trailing separators removed
    first; ["."] for the empty path, ["/"] for a path of separators. *)
Definition Base (path : string) : string :=
  match path with
  | EmptyString => "."
  | _ =>
      let stripped := drop_seps (rev (chars path)) in
      match rev (take_elem stripped) with
      | [] => "/"
      | e => str e
      end
  end.

(** The elements of a path between separators, empty ones included. *)
Fixpoint elements (cur : list ascii) (l : list ascii) : list string :=
  match l with
  | [] => [str (rev cur)]
  | c :: l' =>
      if is_sep c then str (rev cur) :: elements [] l'
      else elements (c :: cur) l'
  end.

(** One element of [Clean]'s scan; [out] is the output so far, last
    element first.  A [".."] removes the element before it when there is
    one to remove, is dropped at the root, and is kept otherwise. *)
Definition clean_elem (rooted : bool) (out : list string) (e : string)
  : list string :=
  if String.eqb e "" then out
  else if String.eqb e "." then out
  else if String.eqb e ".." then
    match out with
    | top :: out' =>
        if String.eqb top ".." then e :: out else out'
    | [] => if rooted then [] else [e]
    end
  else e :: out.

Definition Clean (path : string) : string :=
  match chars path with
  | [] => "."
  | c :: _ =>
      let rooted := is_sep c in
      let out := fold_left (clean_elem rooted) (elements [] (chars path)) [] in
      let body := String.concat "/" (rev out) in
      if rooted then "/" +:+ body
      else if String.eqb body "" then "." else body
  end.

(** [Join] of two elements: empty leading elements are ignored, the rest
    is joined with the separator and cleaned. *)
Definition Join (a b : string) : string :=
  if String.eqb a "" then
    if String.eqb b "" then "" else Clean b
  else Clean (a +:+ "/" +:+ b).

End filepath.

(** ** [github.com/google/shlex]

    The tokenizer is a state machine over the runes of the input.  [Split]
    collects the words until the end of the input; on a lexing error it
    returns the words completed so far together with the error. *)

Module shlex.

Inductive runeTokenClass :=
| unknownRuneClass | spaceRuneClass | escapingQuoteRuneClass
| nonEscapingQuoteRuneClass | escapeRuneClass | commentRuneClass
| eofRuneClass.

Inductive TokenType := UnknownToken | WordToken | SpaceToken | CommentToken.

Inductive lexerState :=
| startState | inWordState | escapingState | escapingQuotedState
| quotingEscapingState | quotingState | commentState.

Definition ClassifyRune (c : ascii) : runeTokenClass :=
  if existsb (Ascii.eqb c) [" "%char; tab; cr; lf] then spaceRuneClass
  else if Ascii.eqb c dquote then escapingQuoteRuneClass
  else if Ascii.eqb c "'" then nonEscapingQuoteRuneClass
  else if Ascii.eqb c "\" then escapeRuneClass
  else if Ascii.eqb c "#" then commentRuneClass
  else unknownRuneClass.

(** The class of the next rune; the end of the input has its own. *)
Definition nextClass (next : option ascii) : runeTokenClass :=
  match next with
  | Some c => ClassifyRune c
  | None => eofRuneClass
  end.

Definition push (value : list ascii) (next : option ascii) : list ascii :=
  match next with
  | Some c => (value ++ [c])%list
  | None => value
  end.

Inductive scan :=
| Continue (state : lexerState) (tokenType : TokenType) (value : list ascii)
| Token (tokenType : TokenType) (value : string) (err : option string)
| EOF.

(** One turn of the loop of [scanStream]. *)
Definition scanStep (state : lexerState) (tokenType : TokenType)
    (value : list ascii) (next : option ascii) : scan :=
  let cls := nextClass next in
  match state with
  | startState =>
      match cls with
      | eofRuneClass => EOF
      | spaceRuneClass => Continue startState tokenType value
      | escapingQuoteRuneClass => Continue quotingEscapingState WordToken value
      | nonEscapingQuoteRuneClass => Continue quotingState WordToken value
      | escapeRuneClass => Continue escapingState WordToken value
      | commentRuneClass => Continue commentState CommentToken value
      | _ => Continue inWordState WordToken (push value next)
      end
  | inWordState =>
      match cls with
      | eofRuneClass => Token tokenType (str value) None
      | spaceRuneClass => Token tokenType (str value) None
      | escapingQuoteRuneClass => Continue quotingEscapingState tokenType value
      | nonEscapingQuoteRuneClass => Continue quotingState tokenType value
      | escapeRuneClass => Continue escapingState tokenType value
      | _ => Continue inWordState tokenType (push value next)
      end
  | escapingState =>
      match cls with
      | eofRuneClass =>
          Token tokenType (str value) (Some "EOF found after escape character")
      | _ => Continue inWordState tokenType (push value next)
      end
  | escapingQuotedState =>
      match cls with
      | eofRuneClass =>
          Token tokenType (str value) (Some "EOF found after escape character")
      | _ => Continue quotingEscapingState tokenType (push value next)
      end
  | quotingEscapingState =>
      match cls with
      | eofRuneClass =>
          Token tokenType (str value)
            (Some "EOF found when expecting closing quote")
      | escapingQuoteRuneClass => Continue inWordState tokenType value
      | escapeRuneClass => Continue escapingQuotedState tokenType value
      | _ => Continue quotingEscapingState tokenType (push value next)
      end
  | quotingState =>
      match cls with
      | eofRuneClass =>
          Token tokenType (str value)
            (Some "EOF found when expecting closing quote")
      | nonEscapingQuoteRuneClass => Continue inWordState tokenType value
      | _ => Continue quotingState tokenType (push value next)
      end
  | commentState =>
      match cls with
      | eofRuneClass => Token tokenType (str value) None
      | spaceRuneClass =>
          if match next with Some c => Ascii.eqb c lf | None => false end
          then Token tokenType (str value) None
          else Continue commentState tokenType (push value next)
      | _ => Continue commentState tokenType (push value next)
      end
  end.

(** [Lexer.Next] on a finished token: a word is returned, a comment is
    skipped, anything else is an error. *)
Definition lexerNext (tokenType : TokenType) (value : string)
    (subStrings : list string) : list string + string :=
  match tokenType with
  | WordToken => inl (subStrings ++ [value])%list
  | CommentToken => inl subStrings
  | _ => inr "Unknown token type"
  end.

(** The loop of [Split] over the loop of [scanStream]: every token
    starts again from [startState] with an empty value. *)
Fixpoint splitLoop (state : lexerState) (tokenType : TokenType)
    (value : list ascii) (subStrings : list string) (input : list ascii)
  : list string * option string :=
  match input with
  | [] =>
      match scanStep state tokenType value None with
      | Token ty v None =>
          match lexerNext ty v subStrings with
          | inl subStrings' => (subStrings', None)
          | inr e => (subStrings, Some e)
          end
      | Token _ _ (Some e) => (subStrings, Some e)
      | _ => (subStrings, None)
      end
  | c :: rest =>
      match scanStep state tokenType value (Some c) with
      | Continue state' ty v => splitLoop state' ty v subStrings rest
      | Token ty v None =>
          match lexerNext ty v subStrings with
          | inl subStrings' =>
              splitLoop startState UnknownToken [] subStrings' rest
          | inr e => (subStrings, Some e)
          end
      | Token _ _ (Some e) => (subStrings, Some e)
      | EOF => (subStrings, None)
      end
  end.

Definition Split (s : string) : list string * option string :=
  splitLoop startState UnknownToken [] [] (chars s).

End shlex.

(** ** The world: file system and trace *)

Inductive result (A : Type) :=
| Ok (a : A)
| Err (err : string).
Arguments Ok {A} a.
Arguments Err {A} err.

(** A path names a regular file with its content, or a directory. *)
Inductive Node :=
| NFile (content : string)
| NDir.

Abbreviation FS := (gmap string Node).

(** [within d p]: [p] is [d] or lies below it. *)
Definition within (d p : string) : bool :=
  String.eqb p d || String.prefix (d +:+ "/") p.

Definition has_child (p : string) (fs : FS) : bool :=
  existsb (fun q => String.prefix (p +:+ "/") q) (map fst (map_to_list fs)).

(** [os.Remove]: a file, or a directory that is empty, is removed; the
    caller never looks at the error, so a refused removal changes nothing. *)
Definition Remove (p : string) (fs : FS) : FS :=
  match fs !! p with
  | Some (NFile _) => delete p fs
  | Some NDir => if has_child p fs then fs else delete p fs
  | None => fs
  end.

(** [os.RemoveAll]: the path and everything below it. *)
Definition RemoveAll (d : string) (fs : FS) : FS :=
  filter (fun kv => within d kv.1 = false) fs.

(** *** [mime/multipart] *)

Module multipart.

Record Part := { FieldName : string; FileName : string; Data : string }.

(** The writer and the buffer it writes to: the parts written so far
    (last one open for writing), and whether the closing boundary has
    been written. *)
Record Writer := { boundary : string; parts : list Part; closed : bool }.

Definition NewWriter (randomBoundary : string) : Writer :=
  {| boundary := randomBoundary; parts := []; closed := false |}.

(** Writing a part header to a [bytes.Buffer] has no way to fail. *)
Definition CreateFormFile (w : Writer) (fieldname filename : string)
  : result Writer :=
  Ok {| boundary := boundary w;
        parts := (parts w ++ [{| FieldName := fieldname;
                                 FileName := filename;
                                 Data := "" |}])%list;
        closed := closed w |}.

(** Bytes written to the part that [CreateFormFile] opened. *)
Definition write (w : Writer) (bytes : string) : Writer :=
  {| boundary := boundary w;
     parts := match rev (parts w) with
              | p :: before =>
                  (rev before ++ [{| FieldName := FieldName p;
                                     FileName := FileName p;
                                     Data := Data p +:+ bytes |}])%list
              | [] => []
              end;
     closed := closed w |}.

(** The [tspecials] of RFC 2045, and the space. *)
Definition tspecials : string :=
  str (chars "()<>@,;:\" ++ dquote :: chars "/[]?= ").

(** The boundary is quoted when it has one of these characters; the
    boundary [NewWriter] draws is made of hexadecimal digits. *)
Definition FormDataContentType (w : Writer) : string :=
  let b := boundary w in
  let b := if ContainsAny b tspecials
           then str [dquote] +:+ b +:+ str [dquote] else b in
  "multipart/form-data; boundary=" +:+ b.

Definition Close (w : Writer) : Writer :=
  {| boundary := boundary w; parts := parts w; closed := true |}.

End multipart.

(** *** [net/http] *)

(** A response body: what reading it to the end yields, what a read
    yields once it has been closed, and whether it has been closed.  What
    a closed body answers depends on the body: the body of an HTTP/1
    response fails with [http: read on closed response body], an empty
    body ([http.NoBody]) is at its end, an HTTP/2 body fails with an error
    of its own. *)
Record ReadCloser := {
  payload : string * option string;
  after_close : string * option string;
  rc_closed : bool
}.

Definition ReadAll (b : ReadCloser) : string * option string :=
  if rc_closed b then after_close b else payload b.

Definition CloseBody (b : ReadCloser) : ReadCloser :=
  {| payload := payload b; after_close := after_close b; rc_closed := true |}.

Record Response := { Status : string; StatusCode : Z; Body : ReadCloser }.

Record Request := {
  Method : string;
  URL : string;
  ReqBody : multipart.Writer;
  BasicAuth : option (string * string);
  Header : gmap string string
}.

Definition MethodPut : string := "PUT".

Definition SetBasicAuth (req : Request) (username password : string) : Request :=
  {| Method := Method req; URL := URL req; ReqBody := ReqBody req;
     BasicAuth := Some (username, password); Header := Header req |}.

Definition HeaderSet (req : Request) (key value : string) : Request :=
  {| Method := Method req; URL := URL req; ReqBody := ReqBody req;
     BasicAuth := BasicAuth req; Header := <[key := value]> (Header req) |}.

(** *** [os.FileInfo] and what [filepath.Walk] finds *)

Record FileInfo := { Name : string; IsDir : bool }.

(** What the walk observes at a path: a non-directory, a path whose
    [Lstat] fails, or a directory with the error of reading it or its
    entries in the order [Walk] visits them. *)
#[local] Unset Elimination Schemes.
Inductive WalkNode :=
| WFile (name : string)
| WLstatErr (name : string) (err : string)
| WDir (name : string) (readErr : option string) (entries : list WalkNode).
#[local] Set Elimination Schemes.

Definition lstat_err (n : WalkNode) : option string :=
  match n with
  | WLstatErr _ err => Some err
  | _ => None
  end.

Definition is_Some_b {A} (o : option A) : bool :=
  match o with Some _ => true | None => false end.

Definition node_name (n : WalkNode) : string :=
  match n with
  | WFile name | WLstatErr name _ | WDir name _ _ => name
  end.

Inductive WalkErr := SkipDir | SkipAll | OtherErr (msg : string).

(** *** Configuration *)

Record ServerConfig := { Url : string; User : string; Pass : string }.
Record WatcherConfig := { Path : string }.
Record OcrConfig := { Exec : string; Args : string }.
Record Config := {
  Server : ServerConfig;
  Watcher : WatcherConfig;
  Ocr : OcrConfig
}.

(** *** Observable actions *)

Inductive Event :=
| ELog (msg : string)
| ESleep (seconds : Z)
| EMkdirTemp (dir : string)
| EExec (name : string) (args : list string)
| EOpen (path : string)
| EHttp (req : Request)
| ERemove (path : string)
| ERemoveAll (path : string)
| EWatch (path : string) (events : list string).

Record World := { fs : FS; trace : list Event }.

(** *** The answers of the environment *)

Record Env := {
  (** [ioutil.TempDir dir pattern]: the name of the directory it made *)
  env_TempDir : FS -> string -> string -> result string;
  (** running a command: the file system it leaves, its combined output
      and its error (spawn error or non-zero exit) *)
  env_Run : string -> list string -> FS -> FS * string * option string;
  (** the boundary [multipart.NewWriter] draws *)
  env_randomBoundary : string;
  (** the error of [http.NewRequest] for a method and URL *)
  env_NewRequest : string -> string -> option string;
  (** [client.Do]: the response and the error *)
  env_Do : Request -> option Response * option string;
  (** what [filepath.Walk] observes at the root *)
  env_Walk : string -> WalkNode;
  env_LookPath : string -> string;
  (** [envconfig.Process] *)
  env_Process : Config -> result Config;
  (** [template.Parse] and [Execute] *)
  env_TemplateParse : string -> option string;
  env_TemplateExecute : string -> ServerConfig -> result string;
  env_Stat : string -> result FileInfo;
  (** [notify.Watch] *)
  env_Watch : string -> list string -> option string
}.

(** ** The monad

    [Fatal] is [os.Exit(1)] out of [log.Fatal]; [Panic] is a run-time
    panic.  Neither is recovered anywhere in the program, so both end the
    process; they differ in that a panic runs the deferred calls. *)

Inductive Outcome (A : Type) :=
| Ret (a : A)
| Fatal
| Panic (msg : string).
Arguments Ret {A} a.
Arguments Fatal {A}.
Arguments Panic {A} msg.

Definition M (A : Type) : Type := World -> Outcome A * World.

#[global] Instance M_ret : MRet M := fun A a w => (Ret a, w).

#[global] Instance M_bind : MBind M := fun A B f m w =>
  match m w with
  | (Ret a, w') => f a w'
  | (Fatal, w') => (Fatal, w')
  | (Panic msg, w') => (Panic msg, w')
  end.

Definition emit (e : Event) : M unit := fun w =>
  (Ret tt, {| fs := fs w; trace := (trace w ++ [e])%list |}).

Definition panic {A} (msg : string) : M A := fun w => (Panic msg, w).

(** [defer d] around the rest of a function: [d] runs when the rest
    returns or panics, not when the process exits. *)
Definition defer {A} (d : M unit) (rest : M A) : M A := fun w =>
  match rest w with
  | (Ret a, w') => (Ret a, (d w').2)
  | (Panic msg, w') => (Panic msg, (d w').2)
  | (Fatal, w') => (Fatal, w')
  end.

Module log.
Definition Println (msg : string) : M unit := emit (ELog msg).
Definition Fatal {A} (msg : string) : M A := fun w =>
  (Fatal, (emit (ELog msg) w).2).
End log.

Definition when (b : bool) (m : M unit) : M unit :=
  if b then m else mret tt.

(** [if err != nil { f(err) }] *)
Definition on_err (err : option string) (f : string -> M unit) : M unit :=
  match err with
  | Some e => f e
  | None => mret tt
  end.

(** ** The program *)

Section Program.

Context (E : Env).

(** *** System calls *)

Definition time_Sleep (seconds : Z) : M unit := emit (ESleep seconds).

Definition ioutil_TempDir (dir pattern : string) : M (result string) :=
  fun w =>
    match env_TempDir E (fs w) dir pattern with
    | Ok name =>
        (Ret (Ok name),
         {| fs := <[name := NDir]> (fs w);
            trace := (trace w ++ [EMkdirTemp name])%list |})
    | Err err => (Ret (Err err), w)
    end.

Definition os_Remove (path : string) : M unit := fun w =>
  (Ret tt, {| fs := Remove path (fs w);
              trace := (trace w ++ [ERemove path])%list |}).

Definition os_RemoveAll (path : string) : M unit := fun w =>
  (Ret tt, {| fs := RemoveAll path (fs w);
              trace := (trace w ++ [ERemoveAll path])%list |}).

(** [os.Open]: the node at the path, if there is one. *)
Definition os_Open (name : string) : M (result Node) := fun w =>
  (Ret (match fs w !! name with
        | Some n => Ok n
        | None => Err ("open " +:+ name +:+ ": no such file or directory")
        end),
   {| fs := fs w; trace := (trace w ++ [EOpen name])%list |}).

(** [io.Copy] into the open part: a directory cannot be read. *)
Definition io_Copy (dst : multipart.Writer) (src : Node)
  : result multipart.Writer :=
  match src with
  | NFile content => Ok (multipart.write dst content)
  | NDir => Err "read: is a directory"
  end.

(** [exec.Command(name, args...).CombinedOutput()] *)
Definition CombinedOutput (name : string) (args : list string)
  : M (string * option string) := fun w =>
  let '(fs', out, err) := env_Run E name args (fs w) in
  (Ret (out, err),
   {| fs := fs'; trace := (trace w ++ [EExec name args])%list |}).

Definition http_NewRequest (method url : string) (body : multipart.Writer)
  : result Request :=
  match env_NewRequest E method url with
  | Some err => Err err
  | None => Ok {| Method := method; URL := url; ReqBody := body;
                  BasicAuth := None; Header := ∅ |}
  end.

Definition client_Do (req : Request) : M (option Response * option string) :=
  fun w =>
    (Ret (env_Do E req),
     {| fs := fs w; trace := (trace w ++ [EHttp req])%list |}).

Definition is_2xx (code : Z) : bool := (200 <=? code) && (code <? 300).

(** *** [uploadFile]

    [defer file.Close()] has no effect on the world.  [defer
    res.Body.Close()] evaluates [res.Body] where it stands, which panics
    when [res] is nil; otherwise it closes the body of the response that
    is returned. *)
Definition uploadFile (filename url user passwd : string) : M Response :=
  let bodyWriter := multipart.NewWriter (env_randomBoundary E) in
  let fileBase := filepath.Base filename in
  let url := url +:+ "/" +:+ fileBase in
  match multipart.CreateFormFile bodyWriter "file" fileBase with
  | Err err => log.Fatal ("Creating fileWriter: " +:+ err)
  | Ok bodyWriter =>
      file ← os_Open filename;
      match file with
      | Err err => log.Fatal ("Opening file: " +:+ err)
      | Ok file =>
          match io_Copy bodyWriter file with
          | Err err => log.Fatal ("Buffering file: " +:+ err)
          | Ok bodyWriter =>
              let contentType := multipart.FormDataContentType bodyWriter in
              let bodyWriter := multipart.Close bodyWriter in
              match http_NewRequest MethodPut url bodyWriter with
              | Err err => log.Fatal err
              | Ok req =>
                  let req := SetBasicAuth req user passwd in
                  let req := HeaderSet req "Content-Type" contentType in
                  '(res, err) ← client_Do req;
                  on_err err (fun e =>
                    log.Println ("Error uploading file: " +:+ e));;
                  match res with
                  | None =>
                      panic "invalid memory address or nil pointer dereference"
                  | Some res =>
                      log.Println ("Upload result for " +:+ filename
                                   +:+ " : " +:+ Status res);;
                      (if (StatusCode res <? 200) || (300 <=? StatusCode res)
                       then
                         let '(bodyString, err) := ReadAll (Body res) in
                         match err with
                         | Some e => log.Fatal e
                         | None => log.Println bodyString
                         end
                       else mret tt);;
                      mret {| Status := Status res;
                              StatusCode := StatusCode res;
                              Body := CloseBody (Body res) |}
                  end
              end
          end
      end
  end.

(** *** [processFile] *)
Definition processFile (cfg : Config) (inFile : string) (wait : bool)
  : M unit :=
  log.Println ("New file detected: " +:+ inFile);;
  when wait (time_Sleep 5);;
  log.Println ("Processing file: " +:+ inFile);;
  tempDir ← ioutil_TempDir "/tmp" "ocrmypdf-*";
  match tempDir with
  | Err err => log.Fatal err
  | Ok tempDir =>
      defer (os_RemoveAll tempDir)
        (log.Println ("Temp direcotory created: " +:+ tempDir);;
         let tempFile := filepath.Join tempDir (filepath.Base inFile) in
         let '(args, err) := shlex.Split (Args (Ocr cfg)) in
         on_err err (fun e => log.Println ("Error parsing arguments: " +:+ e));;
         let args := (args ++ [inFile; tempFile])%list in
         log.Println ("Executing " +:+ Exec (Ocr cfg) +:+ " " +:+ fmt_slice args);;
         '(out, err) ← CombinedOutput (Exec (Ocr cfg)) args;
         log.Println out;;
         match err with
         | Some e => log.Println ("Job failed: " +:+ e)
         | None =>
             log.Println "Job finished successfully.";;
             res ← uploadFile tempFile (Url (Server cfg)) (User (Server cfg))
                              (Pass (Server cfg));
             if (200 <=? StatusCode res) && (StatusCode res <? 300) then
               log.Println ("Removing input: " +:+ inFile);;
               os_Remove inFile
             else
               let '(bodyString, err) := ReadAll (Body res) in
               on_err err log.Println;;
               log.Println bodyString
         end;;
         log.Println ("Removing temp direcotory: " +:+ tempDir);;
         os_RemoveAll tempDir)
  end.

(** *** [filepath.Walk] *)

Definition WalkFunc : Type :=
  string -> option FileInfo -> option string -> M (option WalkErr).

Definition is_SkipDir (e : WalkErr) : bool :=
  match e with SkipDir => true | _ => false end.

Definition is_dir_node (n : WalkNode) : bool :=
  match n with WDir _ _ _ => true | _ => false end.

(** [walk]: the function is called on the path itself; for a directory
    that could be read, every entry is then visited in order.  An entry
    whose [Lstat] fails is handed to the function with no [FileInfo]. *)
Fixpoint walk (walkFn : WalkFunc) (path : string) (n : WalkNode)
  : M (option WalkErr) :=
  match n with
  | WFile name => walkFn path (Some {| Name := name; IsDir := false |}) None
  | WLstatErr _ err => walkFn path None (Some err)
  | WDir name readErr entries =>
      err1 ← walkFn path (Some {| Name := name; IsDir := true |}) readErr;
      if is_Some_b readErr || is_Some_b err1 then mret err1
      else
        (fix range (names : list WalkNode) : M (option WalkErr) :=
           match names with
           | [] => mret None
           | c :: names' =>
               let filename := filepath.Join path (node_name c) in
               err ← walk walkFn filename c;
               match err with
               | None => range names'
               | Some e =>
                   if (is_dir_node c || is_Some_b (lstat_err c))
                      && is_SkipDir e
                   then range names' else mret (Some e)
               end
           end) entries
  end.

(** The loop of [walk] over the entries of a directory, on its own. *)
Definition range (walkFn : WalkFunc) (path : string)
  : list WalkNode -> M (option WalkErr) :=
  fix range (names : list WalkNode) : M (option WalkErr) :=
    match names with
    | [] => mret None
    | c :: names' =>
        let filename := filepath.Join path (node_name c) in
        err ← walk walkFn filename c;
        match err with
        | None => range names'
        | Some e =>
            if (is_dir_node c || is_Some_b (lstat_err c)) && is_SkipDir e
            then range names' else mret (Some e)
        end
    end.

Definition filepath_Walk (root : string) (fn : WalkFunc)
  : M (option WalkErr) :=
  err ← walk fn root (env_Walk E root);
  match err with
  | Some SkipDir | Some SkipAll => mret None
  | _ => mret err
  end.

(** *** [processDir] *)

(** The function [processDir] hands to [Walk].  [info.IsDir()] on a nil
    [FileInfo] is a nil dereference. *)
Definition processDir_fn (cfg : Config) : WalkFunc := fun path info err =>
  on_err err log.Println;;
  match info with
  | None => panic "invalid memory address or nil pointer dereference"
  | Some info =>
      when (negb (IsDir info))
        (processFile cfg (Path (Watcher cfg) +:+ "/" +:+ Name info) false);;
      mret None
  end.

Definition processDir (cfg : Config) : M unit :=
  filepath_Walk (Path (Watcher cfg)) (processDir_fn cfg);;
  mret tt.

(** *** [main], up to the event loop *)

Definition default_Args : string :=
  "--pdf-renderer sandwich --tesseract-timeout 1800 --rotate-pages -l eng+deu --deskew --clean --skip-text".

Definition InCloseWrite : string := "notify.InCloseWrite".
Definition InMovedTo : string := "notify.InMovedTo".

Definition readEnv (cfg : Config) : M Config :=
  match env_Process E cfg with
  | Err err => log.Fatal err
  | Ok cfg => mret cfg
  end.

(** [main] from its first line to the [for] loop: the configuration the
    loop runs with is returned. *)
Definition main_startup : M Config :=
  let cfg := {| Server := {| Url := ""; User := ""; Pass := "" |};
                Watcher := {| Path := "" |};
                Ocr := {| Exec := env_LookPath E "ocrmypdf";
                          Args := default_Args |} |} in
  cfg ← readEnv cfg;
  match env_TemplateParse E (Url (Server cfg)) with
  | Some err => log.Fatal ("Unable to parse url " +:+ err)
  | None =>
      match env_TemplateExecute E (Url (Server cfg)) (Server cfg) with
      | Err err => log.Fatal ("Unable to parse url " +:+ err)
      | Ok tpl =>
          let cfg := {| Server := {| Url := tpl;
                                     User := User (Server cfg);
                                     Pass := Pass (Server cfg) |};
                        Watcher := Watcher cfg;
                        Ocr := Ocr cfg |} in
          log.Println ("Upload-URL: " +:+ Url (Server cfg));;
          match env_Stat E (Path (Watcher cfg)) with
          | Err err => log.Fatal ("Unable to access watcher path " +:+ err)
          | Ok fileInfo =>
              if negb (IsDir fileInfo)
              then log.Fatal "Watcher path is not a directory <nil>"
              else
                log.Println "Processing old files first";;
                processDir cfg;;
                log.Println ("Watching " +:+ Path (Watcher cfg));;
                emit (EWatch (Path (Watcher cfg)) [InCloseWrite; InMovedTo]);;
                match env_Watch E (Path (Watcher cfg))
                        [InCloseWrite; InMovedTo] with
                | Some err => log.Fatal err
                | None => mret cfg
                end
          end
      end
  end.

(** One turn of the event loop: [go processFile(cfg, filename, true)].
    The goroutines run concurrently; only what one of them does on its
    own is described here. *)
Definition on_event (cfg : Config) (filename : string) : M unit :=
  processFile cfg filename true.

End Program.

(** ** Vocabulary of the properties *)

(** The temp output path of a job, and the argument vector of its OCR run. *)
Definition tempFileOf (tempDir inFile : string) : string :=
  filepath.Join tempDir (filepath.Base inFile).

Definition ocrArgs (cfg : Config) (inFile tempDir : string) : list string :=
  ((shlex.Split (Args (Ocr cfg))).1 ++ [inFile; tempFileOf tempDir inFile])%list.

(** The line a non-nil error leaves in the log. *)
Definition err_log (pre : string) (err : option string) : list Event :=
  match err with
  | Some e => [ELog (pre +:+ e)]
  | None => []
  end.

(** The response as [uploadFile] hands it back: its body is closed. *)
Definition closed_response (res : Response) : Response :=
  {| Status := Status res; StatusCode := StatusCode res;
     Body := CloseBody (Body res) |}.

(** The events of a job up to the end of the OCR run. *)
Definition job_prefix (cfg : Config) (inFile : string) (wait : bool)
    (tempDir out : string) : list Event :=
  ([ELog ("New file detected: " +:+ inFile)]
   ++ (if wait then [ESleep 5] else [])
   ++ [ELog ("Processing file: " +:+ inFile);
       EMkdirTemp tempDir;
       ELog ("Temp direcotory created: " +:+ tempDir)]
   ++ err_log "Error parsing arguments: " (shlex.Split (Args (Ocr cfg))).2
   ++ [ELog ("Executing " +:+ Exec (Ocr cfg) +:+ " "
             +:+ fmt_slice (ocrArgs cfg inFile tempDir));
       EExec (Exec (Ocr cfg)) (ocrArgs cfg inFile tempDir);
       ELog out])%list.

(** An event other than a settle-wait. *)
Definition no_sleep (e : Event) : Prop :=
  match e with ESleep _ => False | _ => True end.

(** What the steps after the OCR run may emit. *)
Definition tail_event (P : Event -> Prop) : Prop :=
  (forall msg, P (ELog msg)) /\ (forall p, P (EOpen p))
  /\ (forall r, P (EHttp r)) /\ (forall p, P (ERemove p))
  /\ (forall p, P (ERemoveAll p)).

(** [emits P m]: whatever [m] does, it only appends events, and all of
    them satisfy [P]. *)
Definition emits {A} (P : Event -> Prop) (m : M A) : Prop :=
  forall w r w', m w = (r, w') ->
    exists tr, trace w' = (trace w ++ tr)%list /\ Forall P tr.

(** The events that belong to an upload attempt: opening the file to send
    and sending the request. *)
Definition is_upload_event (e : Event) : bool :=
  match e with
  | EOpen _ | EHttp _ => true
  | _ => false
  end.

Definition is_exec_event (e : Event) : bool :=
  match e with
  | EExec _ _ => true
  | _ => false
  end.

(** The request [uploadFile] builds for a file whose content is [content]. *)
Definition putRequest (E : Env) (filename url user passwd content : string)
  : Request :=
  let w := {| multipart.boundary := env_randomBoundary E;
              multipart.parts :=
                [{| multipart.FieldName := "file";
                    multipart.FileName := filepath.Base filename;
                    multipart.Data := content |}];
              multipart.closed := true |} in
  {| Method := "PUT";
     URL := url +:+ "/" +:+ filepath.Base filename;
     ReqBody := w;
     BasicAuth := Some (user, passwd);
     Header := {[ "Content-Type" := multipart.FormDataContentType w ]} |}.

(** What the start-up scan does, entry by entry, in the order of the walk:
    a job for a non-directory, the logging of a directory's read error (if
    any), or the crash on an entry that comes without a [FileInfo]. *)
Inductive Visit :=
| VJob (name : string)
| VDir (readErr : option string)
| VNil (err : string).

Fixpoint visits (n : WalkNode) : list Visit :=
  match n with
  | WFile name => [VJob name]
  | WLstatErr _ err => [VNil err]
  | WDir _ readErr entries =>
      VDir readErr ::
      (if is_Some_b readErr then []
       else (fix each (l : list WalkNode) : list Visit :=
               match l with
               | [] => []
               | c :: l' => (visits c ++ each l')%list
               end) entries)
  end.

Fixpoint visits_each (l : list WalkNode) : list Visit :=
  match l with
  | [] => []
  | c :: l' => (visits c ++ visits_each l')%list
  end.

Fixpoint run_visits (E : Env) (cfg : Config) (l : list Visit) : M unit :=
  match l with
  | [] => mret tt
  | VJob name :: l' =>
      processFile E cfg (Path (Watcher cfg) +:+ "/" +:+ name) false;;
      run_visits E cfg l'
  | VDir readErr :: l' =>
      on_err readErr log.Println;;
      run_visits E cfg l'
  | VNil err :: _ =>
      log.Println err;;
      panic "invalid memory address or nil pointer dereference"
  end.

Definition is_job (v : Visit) : bool :=
  match v with VJob _ => true | _ => false end.

(** ** Scenarios

    A concrete environment: the OCR executable is a copy script (its last
    two arguments are source and destination), the server answers every
    request the same way, and the walk finds a given tree. *)

Module Scenario.

Definition copy_run (name : string) (args : list string) (fs : FS)
  : FS * string * option string :=
  match rev args with
  | dst :: src :: _ =>
      match fs !! src with
      | Some n => (<[dst := n]> fs, "copied", None)
      | None => (fs, "no such file", Some "exit status 1")
      end
  | _ => (fs, "usage: copy src dst", Some "exit status 2")
  end.

(** An executable that fails and writes nothing. *)
Definition failing_run (name : string) (args : list string) (fs : FS)
  : FS * string * option string :=
  (fs, "InputFileError", Some "exit status 2").

(** An executable that exits 0 without writing anything. *)
Definition silent_run (name : string) (args : list string) (fs : FS)
  : FS * string * option string := (fs, "", None).

Definition cfg : Config :=
  {| Server := {| Url := "http://dav/remote.php/u"; User := "u"; Pass := "p" |};
     Watcher := {| Path := "/scans" |};
     Ocr := {| Exec := "/usr/bin/ocrmypdf";
               Args := "--flag-a --flag-b 'two words'" |} |}.

Definition env (run : string -> list string -> FS -> FS * string * option string)
    (answer : option Response * option string) (tree : WalkNode) : Env :=
  {| env_TempDir := fun _ _ _ => Ok "/tmp/ocrmypdf-1";
     env_Run := run;
     env_randomBoundary := "5b2f9c1d";
     env_NewRequest := fun _ _ => None;
     env_Do := fun _ => answer;
     env_Walk := fun _ => tree;
     env_LookPath := fun _ => "/usr/bin/ocrmypdf";
     env_Process := fun c =>
       Ok {| Server := Server cfg; Watcher := Watcher cfg; Ocr := Ocr c |};
     env_TemplateParse := fun _ => None;
     env_TemplateExecute := fun url _ => Ok url;
     env_Stat := fun _ => Ok {| Name := "scans"; IsDir := true |};
     env_Watch := fun _ _ => None |}.

Definition body (text : string) (err : option string) : ReadCloser :=
  {| payload := (text, err);
     after_close := ("", Some "http: read on closed response body");
     rc_closed := false |}.

Definition answer (code : Z) : option Response * option string :=
  (Some {| Status := "status"; StatusCode := code; Body := body "reply" None |},
   None).

(** A non-2xx answer whose body cannot be read to the end. *)
Definition broken_answer (code : Z) : option Response * option string :=
  (Some {| Status := "status"; StatusCode := code;
           Body := body "" (Some "unexpected EOF") |},
   None).

Definition no_answer : option Response * option string :=
  (None, Some "dial tcp: connection refused").

Definition tree : WalkNode :=
  WDir "scans" None [WFile "scan1.pdf"; WDir "old" (Some "permission denied") [];
                     WFile "scan2.pdf"].

Definition racy_tree : WalkNode :=
  WDir "scans" None [WLstatErr "gone.pdf" "lstat /scans/gone.pdf: no such file or directory";
                     WFile "scan1.pdf"].

Definition w0 : World :=
  {| fs := {[ "/scans/scan1.pdf" := NFile "%PDF-1.4" ]}; trace := [] |}.

(** The configuration [main] ends up with in this environment. *)
Definition startup_cfg : Config :=
  {| Server := Server cfg; Watcher := Watcher cfg;
     Ocr := {| Exec := "/usr/bin/ocrmypdf"; Args := default_Args |} |}.

Definition bad_args_cfg : Config :=
  {| Server := Server cfg; Watcher := Watcher cfg;
     Ocr := {| Exec := "/usr/bin/ocrmypdf"; Args := "-l 'eng" |} |}.

End Scenario.

(** ** Further vocabulary *)

Definition is_log (e : Event) : bool :=
  match e with ELog _ => true | _ => false end.

(** The events of a trace that are not log lines. *)
Definition actions (tr : list Event) : list Event :=
  List.filter (fun e => negb (is_log e)) tr.

(** The settle-wait of a job. *)
Definition settle (wait : bool) : list Event :=
  if wait then [ESleep 5] else [].

(** The configuration [main] hands to [readEnv]. *)
Definition defaults (E : Env) : Config :=
  {| Server := {| Url := ""; User := ""; Pass := "" |};
     Watcher := {| Path := "" |};
     Ocr := {| Exec := env_LookPath E "ocrmypdf"; Args := default_Args |} |}.

(** The configuration after the URL template has been resolved. *)
Definition resolved (c : Config) (tpl : string) : Config :=
  {| Server := {| Url := tpl; User := User (Server c); Pass := Pass (Server c) |};
     Watcher := Watcher c;
     Ocr := Ocr c |}.

(** A path element that names an entry: not empty, not [.] or [..], and
    without a separator. *)
Definition plain_name (s : string) : bool :=
  negb (String.eqb s "") && negb (String.eqb s ".")
  && negb (String.eqb s "..") && negb (existsb is_sep (chars s)).



(** A string without quotes and backslashes. *)
Definition is_quoting_rune (c : ascii) : bool :=
  match shlex.ClassifyRune c with
  | shlex.escapingQuoteRuneClass | shlex.nonEscapingQuoteRuneClass
  | shlex.escapeRuneClass => true
  | _ => false
  end.

Definition unquoted (s : string) : bool :=
  negb (existsb is_quoting_rune (chars s)).

(** The files of a scan, as [processDir] names them, in walk order. *)
Fixpoint job_paths (cfg : Config) (l : list Visit) : list string :=
  match l with
  | [] => []
  | VJob name :: l' => (Path (Watcher cfg) +:+ "/" +:+ name) :: job_paths cfg l'
  | _ :: l' => job_paths cfg l'
  end.

(** The OCR command of a job for [inFile] whose temp directory is [d]. *)
Definition ocr_command (cfg : Config) (inFile d : string) : Event :=
  EExec (Exec (Ocr cfg)) (ocrArgs cfg inFile d).

(** The events in the life of a temp directory: [ioutil.TempDir] has made
    it (the event carries the name [TempDir] returned), a command is run,
    [os.RemoveAll] is called. *)
Definition is_lifecycle_event (e : Event) : bool :=
  match e with
  | EMkdirTemp _ | EExec _ _ | ERemoveAll _ => true
  | _ => false
  end.

(** These events for a job for [inFile] that returns, [d] being the
    directory its [ioutil.TempDir] made. *)
Definition job_lifecycle (cfg : Config) (inFile d : string) : list Event :=
  [EMkdirTemp d; ocr_command cfg inFile d; ERemoveAll d; ERemoveAll d].

(** A function for [Walk] that only notes the path it is handed. *)
Definition note_path : WalkFunc := fun path info err =>
  log.Println path;; mret None.

(** Environments with one answer changed. *)
Module Faults.

(** A watched directory with a file and a subdirectory of two files, one
    of them named like the file above it. *)
Definition nested_tree : WalkNode :=
  WDir "scans" None
    [WFile "a.pdf"; WDir "sub" None [WFile "a.pdf"; WFile "b.pdf"]].

Definition nested_w0 : World :=
  {| fs := {[ "/scans/a.pdf" := NFile "%PDF-top";
              "/scans/sub" := NDir;
              "/scans/sub/a.pdf" := NFile "%PDF-sub-a";
              "/scans/sub/b.pdf" := NFile "%PDF-sub-b" ]};
     trace := [] |}.

Definition with_TempDir (E : Env) (f : FS -> string -> string -> result string)
  : Env :=
  {| env_TempDir := f; env_Run := env_Run E;
     env_randomBoundary := env_randomBoundary E;
     env_NewRequest := env_NewRequest E; env_Do := env_Do E;
     env_Walk := env_Walk E; env_LookPath := env_LookPath E;
     env_Process := env_Process E;
     env_TemplateParse := env_TemplateParse E;
     env_TemplateExecute := env_TemplateExecute E;
     env_Stat := env_Stat E; env_Watch := env_Watch E |}.

Definition with_NewRequest (E : Env) (f : string -> string -> option string)
  : Env :=
  {| env_TempDir := env_TempDir E; env_Run := env_Run E;
     env_randomBoundary := env_randomBoundary E;
     env_NewRequest := f; env_Do := env_Do E;
     env_Walk := env_Walk E; env_LookPath := env_LookPath E;
     env_Process := env_Process E;
     env_TemplateParse := env_TemplateParse E;
     env_TemplateExecute := env_TemplateExecute E;
     env_Stat := env_Stat E; env_Watch := env_Watch E |}.

Definition with_Stat (E : Env) (f : string -> result FileInfo) : Env :=
  {| env_TempDir := env_TempDir E; env_Run := env_Run E;
     env_randomBoundary := env_randomBoundary E;
     env_NewRequest := env_NewRequest E; env_Do := env_Do E;
     env_Walk := env_Walk E; env_LookPath := env_LookPath E;
     env_Process := env_Process E;
     env_TemplateParse := env_TemplateParse E;
     env_TemplateExecute := env_TemplateExecute E;
     env_Stat := f; env_Watch := env_Watch E |}.

Definition with_Watch (E : Env) (f : string -> list string -> option string)
  : Env :=
  {| env_TempDir := env_TempDir E; env_Run := env_Run E;
     env_randomBoundary := env_randomBoundary E;
     env_NewRequest := env_NewRequest E; env_Do := env_Do E;
     env_Walk := env_Walk E; env_LookPath := env_LookPath E;
     env_Process := env_Process E;
     env_TemplateParse := env_TemplateParse E;
     env_TemplateExecute := env_TemplateExecute E;
     env_Stat := env_Stat E; env_Watch := f |}.

(** An executable that writes its output whatever its source is. *)
Definition blind_run (name : string) (args : list string) (fs : FS)
  : FS * string * option string :=
  match rev args with
  | dst :: _ => (<[dst := NFile "%PDF-1.4"]> fs, "", None)
  | [] => (fs, "", Some "exit status 2")
  end.

Definition base : Env :=
  Scenario.env Scenario.copy_run (Scenario.answer 201) Scenario.tree.

End Faults.

(** ** Proof tools *)

Arguments String.append : simpl never.
Arguments filepath.Base : simpl never.
Arguments filepath.Join : simpl never.
Arguments shlex.Split : simpl never.
Arguments fmt_slice : simpl never.
Arguments multipart.FormDataContentType : simpl never.
Arguments within : simpl never.
Arguments Remove : simpl never.
Arguments RemoveAll : simpl never.

Arguments uploadFile : simpl never.
Arguments job_prefix : simpl never.
Arguments processFile : simpl never.
Arguments processDir : simpl never.

(** Unfold the monad and the system calls down to the world they act on. *)
Ltac run_upload :=
  unfold uploadFile, client_Do, os_Open, http_NewRequest, on_err,
    log.Println, log.Fatal, emit, panic, mbind, M_bind, mret, M_ret;
  cbn.

Ltac run_job :=
  unfold processFile, ioutil_TempDir, CombinedOutput, os_Remove, os_RemoveAll,
    time_Sleep, defer, when, on_err, log.Println, log.Fatal, emit,
    mbind, M_bind, mret, M_ret;
  cbn.

(** Two worlds that differ only in how the trace is bracketed. *)
Ltac same_world := rewrite <- ?app_assoc; reflexivity.

Example Base_ex1 : filepath.Base "/scans/in/scan1.pdf" = "scan1.pdf".
Proof. reflexivity. Qed.
Example Base_ex2 : filepath.Base "/scans/in/" = "in".
Proof. reflexivity. Qed.
Example Base_ex3 : filepath.Base "///" = "/".
Proof. reflexivity. Qed.
Example Join_ex1 :
  filepath.Join "/tmp/ocrmypdf-1" "scan1.pdf" = "/tmp/ocrmypdf-1/scan1.pdf".
Proof. reflexivity. Qed.
Example Join_ex2 : filepath.Join "/tmp/ocrmypdf-1" ".." = "/tmp".
Proof. reflexivity. Qed.
Example Join_ex3 : filepath.Join "a/../../b/" "./c" = "../b/c".
Proof. reflexivity. Qed.
Example Split_ex1 :
  shlex.Split "--flag-a --flag-b 'two words'"
  = (["--flag-a"; "--flag-b"; "two words"], None).
Proof. reflexivity. Qed.
Example Split_ex2 :
  shlex.Split "-l 'eng"
  = (["-l"], Some "EOF found when expecting closing quote").
Proof. reflexivity. Qed.

(** ** The file system *)

Lemma within_refl d : within d d = true.
Proof. unfold within. by rewrite String.eqb_refl. Qed.

Lemma lookup_RemoveAll (d p : string) (fs : FS) :
  RemoveAll d fs !! p = if within d p then None else fs !! p.
Proof.
  unfold RemoveAll. destruct (within d p) eqn:Hw.
  - apply map_lookup_filter_None. right. intros x _. cbn. congruence.
  - destruct (fs !! p) as [x|] eqn:Hp.
    + apply map_lookup_filter_Some. split; [done | cbn; done].
    + apply map_lookup_filter_None. by left.
Qed.

Lemma RemoveAll_gone (d p : string) (fs : FS) :
  within d p = true -> RemoveAll d fs !! p = None.
Proof. intros H. by rewrite lookup_RemoveAll, H. Qed.

Lemma RemoveAll_other (d p : string) (fs : FS) :
  within d p = false -> RemoveAll d fs !! p = fs !! p.
Proof. intros H. by rewrite lookup_RemoveAll, H. Qed.

Lemma Remove_file (p c : string) (fs : FS) :
  fs !! p = Some (NFile c) -> Remove p fs !! p = None.
Proof. intros H. unfold Remove. rewrite H. apply lookup_delete_eq. Qed.

Lemma Remove_other (p q : string) (fs : FS) :
  p <> q -> Remove p fs !! q = fs !! q.
Proof.
  intros H. unfold Remove.
  destruct (fs !! p) as [[c|]|]; [| destruct (has_child p fs) |];
    by rewrite ?lookup_delete_ne.
Qed.

(** A path that exists before a fresh directory is made is not inside it. *)
Lemma outside_fresh (d p : string) (fs : FS) :
  (forall q, within d q = true -> fs !! q = None) ->
  is_Some (fs !! p) -> within d p = false.
Proof.
  intros Hfresh [n Hn]. destruct (within d p) eqn:Hw; [| done].
  rewrite (Hfresh _ Hw) in Hn. discriminate.
Qed.

(** ** Runs of [uploadFile] *)

Section Upload.
Context (E : Env) (filename url user passwd : string) (w : World).

Lemma upload_open_fails :
  fs w !! filename = None ->
  uploadFile E filename url user passwd w
  = (Fatal,
     {| fs := fs w;
        trace := trace w ++
          [EOpen filename;
           ELog ("Opening file: " +:+ "open " +:+ filename
                 +:+ ": no such file or directory")] |}).
Proof. intros Hf. run_upload. rewrite Hf. cbn. same_world. Qed.

Lemma upload_directory :
  fs w !! filename = Some NDir ->
  uploadFile E filename url user passwd w
  = (Fatal,
     {| fs := fs w;
        trace := trace w ++
          [EOpen filename; ELog "Buffering file: read: is a directory"] |}).
Proof. intros Hf. run_upload. rewrite Hf. cbn. same_world. Qed.

Context (content : string).
Hypothesis Hfile : fs w !! filename = Some (NFile content).

Lemma upload_bad_request err :
  env_NewRequest E MethodPut (url +:+ "/" +:+ filepath.Base filename)
  = Some err ->
  uploadFile E filename url user passwd w
  = (Fatal,
     {| fs := fs w; trace := trace w ++ [EOpen filename; ELog err] |}).
Proof.
  intros Hn. run_upload. rewrite Hfile. cbn. rewrite Hn. cbn. same_world.
Qed.

Hypothesis Hreq :
  env_NewRequest E MethodPut (url +:+ "/" +:+ filepath.Base filename) = None.

Local Abbreviation req := (putRequest E filename url user passwd content).

(** Up to the call of [client.Do]. *)
Ltac to_Do Hd :=
  run_upload; rewrite Hfile; cbn; rewrite Hreq; cbn;
  change (env_Do E _) with (env_Do E req); rewrite Hd.

Lemma upload_no_response derr :
  env_Do E req = (None, derr) ->
  uploadFile E filename url user passwd w
  = (Panic "invalid memory address or nil pointer dereference",
     {| fs := fs w;
        trace := trace w ++ [EOpen filename; EHttp req]
                   ++ err_log "Error uploading file: " derr |}).
Proof. intros Hd. to_Do Hd. destruct derr; cbn; same_world. Qed.

Lemma upload_2xx res derr :
  env_Do E req = (Some res, derr) ->
  is_2xx (StatusCode res) = true ->
  uploadFile E filename url user passwd w
  = (Ret (closed_response res),
     {| fs := fs w;
        trace := trace w ++ [EOpen filename; EHttp req]
                   ++ err_log "Error uploading file: " derr
                   ++ [ELog ("Upload result for " +:+ filename +:+ " : "
                             +:+ Status res)] |}).
Proof.
  intros Hd Hc. to_Do Hd. unfold is_2xx in Hc.
  apply andb_true_iff in Hc as [H1 H2].
  assert ((StatusCode res <? 200) || (300 <=? StatusCode res) = false) as ->
    by lia.
  destruct derr; cbn; same_world.
Qed.

Lemma not_2xx code :
  is_2xx code = false -> (code <? 200) || (300 <=? code) = true.
Proof. unfold is_2xx. intros H. apply andb_false_iff in H. lia. Qed.

Lemma upload_other_read res derr text :
  env_Do E req = (Some res, derr) ->
  is_2xx (StatusCode res) = false ->
  ReadAll (Body res) = (text, None) ->
  uploadFile E filename url user passwd w
  = (Ret (closed_response res),
     {| fs := fs w;
        trace := trace w ++ [EOpen filename; EHttp req]
                   ++ err_log "Error uploading file: " derr
                   ++ [ELog ("Upload result for " +:+ filename +:+ " : "
                             +:+ Status res);
                       ELog text] |}).
Proof.
  intros Hd Hc Hb. to_Do Hd. rewrite (not_2xx _ Hc), Hb.
  destruct derr; cbn; same_world.
Qed.

Lemma upload_other_unread res derr text err :
  env_Do E req = (Some res, derr) ->
  is_2xx (StatusCode res) = false ->
  ReadAll (Body res) = (text, Some err) ->
  uploadFile E filename url user passwd w
  = (Fatal,
     {| fs := fs w;
        trace := trace w ++ [EOpen filename; EHttp req]
                   ++ err_log "Error uploading file: " derr
                   ++ [ELog ("Upload result for " +:+ filename +:+ " : "
                             +:+ Status res);
                       ELog err] |}).
Proof.
  intros Hd Hc Hb. to_Do Hd. rewrite (not_2xx _ Hc), Hb.
  destruct derr; cbn; same_world.
Qed.

End Upload.

(** [uploadFile] never changes the file system, and it emits nothing but
    log lines, the opening of the file and the request. *)
Lemma uploadFile_emits E filename url user passwd (P : Event -> Prop) :
  (forall msg, P (ELog msg)) -> (forall p, P (EOpen p)) ->
  (forall r, P (EHttp r)) ->
  emits P (uploadFile E filename url user passwd).
Proof.
  intros Hlog Hopen Hhttp w r w'. run_upload. intros Hrun.
  repeat (case_match; simplify_eq/=);
    (eexists; split; [same_world | repeat constructor; auto]).
Qed.

Lemma uploadFile_fs E filename url user passwd w r w' :
  uploadFile E filename url user passwd w = (r, w') -> fs w' = fs w.
Proof.
  run_upload. intros Hrun. by repeat (case_match; simplify_eq/=).
Qed.

(** ** Runs of [processFile] *)

Lemma job_no_tempdir E cfg inFile wait w err :
  env_TempDir E (fs w) "/tmp" "ocrmypdf-*" = Err err ->
  processFile E cfg inFile wait w
  = (Fatal,
     {| fs := fs w;
        trace := trace w ++ [ELog ("New file detected: " +:+ inFile)]
                   ++ (if wait then [ESleep 5] else [])
                   ++ [ELog ("Processing file: " +:+ inFile); ELog err] |}).
Proof.
  intros Htemp. run_job. destruct wait; cbn; rewrite Htemp; cbn; same_world.
Qed.

Section Job.
Context (E : Env) (cfg : Config) (inFile : string) (wait : bool) (w : World).
Context (d : string) (fs2 : FS) (out : string) (oerr : option string).
Hypothesis Htemp : env_TempDir E (fs w) "/tmp" "ocrmypdf-*" = Ok d.
Hypothesis Hrun :
  env_Run E (Exec (Ocr cfg)) (ocrArgs cfg inFile d) (<[d := NDir]> (fs w))
  = (fs2, out, oerr).

Ltac same_job_world Hs :=
  unfold job_prefix, ocrArgs, tempFileOf; rewrite Hs; cbn; same_world.

(** Up to the end of the OCR run. *)
Ltac to_ocr Hs :=
  let Hrun' := fresh "Hrun" in
  pose proof Hrun as Hrun'; unfold ocrArgs, tempFileOf in Hrun';
  run_job; destruct wait; cbn; rewrite Htemp; cbn;
  destruct (shlex.Split (Args (Ocr cfg))) as [args [perr|]] eqn:Hs;
  cbn in Hrun'; cbn; rewrite Hrun'; cbn.

Lemma job_ocr_failed e :
  oerr = Some e ->
  processFile E cfg inFile wait w
  = (Ret tt,
     {| fs := RemoveAll d (RemoveAll d fs2);
        trace := trace w ++ job_prefix cfg inFile wait d out
                   ++ [ELog ("Job failed: " +:+ e);
                       ELog ("Removing temp direcotory: " +:+ d);
                       ERemoveAll d; ERemoveAll d] |}).
Proof. intros ->. to_ocr Hs; same_job_world Hs. Qed.

(** The world in which the upload starts, and the upload itself. *)
Local Abbreviation wu :=
  {| fs := fs2;
     trace := trace w ++ job_prefix cfg inFile wait d out
                ++ [ELog "Job finished successfully."] |}.
Local Abbreviation upload :=
  (uploadFile E (tempFileOf d inFile) (Url (Server cfg)) (User (Server cfg))
     (Pass (Server cfg)) wu).

Ltac to_upload :=
  let Hs := fresh "Hs" in
  to_ocr Hs;
  match goal with
  | H : uploadFile _ _ _ _ _ ?W = _ |- context [uploadFile _ _ _ _ _ ?W'] =>
      replace W' with W by same_job_world Hs;
      unfold tempFileOf in H; rewrite H; cbn
  end.

Lemma job_upload_fatal w3 :
  oerr = None -> upload = (Fatal, w3) ->
  processFile E cfg inFile wait w = (Fatal, w3).
Proof. intros -> Hup. to_upload; reflexivity. Qed.

Lemma job_upload_panic msg w3 :
  oerr = None -> upload = (Panic msg, w3) ->
  processFile E cfg inFile wait w
  = (Panic msg, {| fs := RemoveAll d (fs w3);
                   trace := trace w3 ++ [ERemoveAll d] |}).
Proof. intros -> Hup. to_upload; reflexivity. Qed.

Lemma job_upload_2xx res w3 :
  oerr = None -> upload = (Ret res, w3) ->
  is_2xx (StatusCode res) = true ->
  processFile E cfg inFile wait w
  = (Ret tt,
     {| fs := RemoveAll d (RemoveAll d (Remove inFile (fs w3)));
        trace := trace w3 ++
          [ELog ("Removing input: " +:+ inFile); ERemove inFile;
           ELog ("Removing temp direcotory: " +:+ d);
           ERemoveAll d; ERemoveAll d] |}).
Proof.
  intros -> Hup Hc. unfold is_2xx in Hc.
  to_upload; rewrite Hc; cbn; same_world.
Qed.

Lemma job_upload_other res w3 :
  oerr = None -> upload = (Ret res, w3) ->
  is_2xx (StatusCode res) = false ->
  processFile E cfg inFile wait w
  = (Ret tt,
     {| fs := RemoveAll d (RemoveAll d (fs w3));
        trace := trace w3 ++ err_log "" (ReadAll (Body res)).2 ++
          [ELog (ReadAll (Body res)).1;
           ELog ("Removing temp direcotory: " +:+ d);
           ERemoveAll d; ERemoveAll d] |}).
Proof.
  intros -> Hup Hc. unfold is_2xx in Hc.
  to_upload; rewrite Hc; cbn;
    destruct (ReadAll (Body res)) as [b [e|]]; cbn; same_world.
Qed.

(** What the upload adds to the trace. *)
Lemma upload_trace (P : Event -> Prop) r w3 :
  (forall msg, P (ELog msg)) -> (forall p, P (EOpen p)) ->
  (forall q, P (EHttp q)) ->
  upload = (r, w3) ->
  fs w3 = fs2 /\
  exists tr : list Event,
    (trace w3 = trace w ++ job_prefix cfg inFile wait d out
                  ++ ELog "Job finished successfully." :: tr)%list
    /\ Forall P tr.
Proof.
  intros Plog Popen Phttp Hup.
  split; [apply (uploadFile_fs _ _ _ _ _ _ _ _ Hup) |].
  apply (uploadFile_emits _ _ _ _ _ P) in Hup as (tr & Htr & Hall);
    [| done..].
  exists tr. split; [| done]. rewrite Htr. cbn. same_world.
Qed.

End Job.

(** ** Every run of a job *)

Lemma filter_none {A} (f : A -> bool) (l : list A) :
  Forall (fun x => f x = false) l -> List.filter f l = [].
Proof. induction 1 as [|x l Hx _ IH]; cbn; [done | by rewrite Hx]. Qed.


Lemma job_prefix_mkdir cfg inFile wait d out :
  In (EMkdirTemp d) (job_prefix cfg inFile wait d out).
Proof.
  unfold job_prefix. destruct wait; cbn; auto 6.
Qed.

(** The outcome and the final world of a job whose temp directory could be
    made, by the outcome [r] of the part under the [defer]: the deferred
    removal runs unless the process exits.  After the OCR run the job
    emits only log lines and the events of the upload and the removals. *)
Lemma job_run (P : Event -> Prop) E cfg inFile wait w d :
  tail_event P ->
  env_TempDir E (fs w) "/tmp" "ocrmypdf-*" = Ok d ->
  exists (r : Outcome unit) (w1 : World) (tr : list Event),
    (trace w1 = trace w ++ job_prefix cfg inFile wait d
        (env_Run E (Exec (Ocr cfg)) (ocrArgs cfg inFile d)
           (<[d := NDir]> (fs w))).1.2 ++ tr)%list
    /\ Forall P tr
    /\ processFile E cfg inFile wait w
       = match r with
         | Fatal => (Fatal, w1)
         | _ => (r, {| fs := RemoveAll d (fs w1);
                       trace := trace w1 ++ [ERemoveAll d] |})
         end.
Proof.
  intros (Plog & Popen & Phttp & Prem & Pall) Htemp.
  destruct (env_Run E (Exec (Ocr cfg)) (ocrArgs cfg inFile d)
              (<[d := NDir]> (fs w))) as [[fs2 out] [e|]] eqn:Hrun; cbn.
  - rewrite (job_ocr_failed _ _ _ _ _ _ _ _ _ Htemp Hrun e eq_refl).
    pose (tr := [ELog ("Job failed: " +:+ e);
                 ELog ("Removing temp direcotory: " +:+ d); ERemoveAll d]).
    exists (Ret tt),
      {| fs := RemoveAll d fs2;
         trace := trace w ++ job_prefix cfg inFile wait d out ++ tr |}, tr.
    split; [done |]. split; [repeat constructor; auto | cbn; same_world].
  - destruct (uploadFile E (tempFileOf d inFile) (Url (Server cfg))
                (User (Server cfg)) (Pass (Server cfg))
                {| fs := fs2;
                   trace := trace w ++ job_prefix cfg inFile wait d out
                              ++ [ELog "Job finished successfully."] |})
      as [[res| |msg] w3] eqn:Hup;
      destruct (upload_trace _ _ _ _ _ _ _ _ P _ _ Plog Popen Phttp Hup)
        as (_ & tr & Htr & Hall).
    + destruct (is_2xx (StatusCode res)) eqn:Hc.
      * rewrite (job_upload_2xx _ _ _ _ _ _ _ _ _ Htemp Hrun _ _ eq_refl Hup Hc).
        pose (tl := [ELog ("Removing input: " +:+ inFile); ERemove inFile;
                     ELog ("Removing temp direcotory: " +:+ d); ERemoveAll d]).
        exists (Ret tt),
          {| fs := RemoveAll d (Remove inFile (fs w3));
             trace := trace w3 ++ tl |},
          (ELog "Job finished successfully." :: tr ++ tl)%list.
        split; [cbn; rewrite Htr; same_world |].
        split; [| cbn; same_world].
        constructor; [done |]. apply Forall_app. split; [done |].
        repeat constructor; auto.
      * rewrite (job_upload_other _ _ _ _ _ _ _ _ _ Htemp Hrun _ _ eq_refl Hup Hc).
        pose (tl := (err_log "" (ReadAll (Body res)).2 ++
                     [ELog (ReadAll (Body res)).1;
                      ELog ("Removing temp direcotory: " +:+ d);
                      ERemoveAll d])%list).
        exists (Ret tt),
          {| fs := RemoveAll d (fs w3); trace := trace w3 ++ tl |},
          (ELog "Job finished successfully." :: tr ++ tl)%list.
        split; [cbn; rewrite Htr; same_world |].
        split; [| cbn; unfold tl; same_world].
        constructor; [done |]. apply Forall_app. split; [done |].
        unfold tl. destruct (ReadAll (Body res)).2; repeat constructor; auto.
    + rewrite (job_upload_fatal _ _ _ _ _ _ _ _ _ Htemp Hrun _ eq_refl Hup).
      exists Fatal, w3, (ELog "Job finished successfully." :: tr).
      split; [done |]. split; [by constructor | done].
    + rewrite (job_upload_panic _ _ _ _ _ _ _ _ _ Htemp Hrun _ _ eq_refl Hup).
      exists (Panic msg), w3, (ELog "Job finished successfully." :: tr).
      split; [done |]. split; [by constructor | done].
Qed.

Lemma not_exec_tail : tail_event (fun e => is_exec_event e = false).
Proof. by repeat split. Qed.

(** ** The properties of a File Job *)

(** C3: when the OCR run fails (non-zero exit or spawn error), the job
    attempts no upload, leaves the source where the OCR run left it, logs
    the failure and returns normally, so the rest of the process goes on.
    The source is assumed not to lie inside the job's own temp directory
    (see [outside_fresh]) and to be left in place by the OCR run. *)
Theorem ocr_failure_keeps_source E cfg inFile wait w d fs2 out e n :
  env_TempDir E (fs w) "/tmp" "ocrmypdf-*" = Ok d ->
  within d inFile = false ->
  env_Run E (Exec (Ocr cfg)) (ocrArgs cfg inFile d) (<[d := NDir]> (fs w))
  = (fs2, out, Some e) ->
  fs2 !! inFile = Some n ->
  exists (w' : World) (tr : list Event),
    processFile E cfg inFile wait w = (Ret tt, w')
    /\ (trace w' = trace w ++ tr)%list
    /\ Forall (fun ev => is_upload_event ev = false) tr
    /\ In (ELog ("Job failed: " +:+ e)) tr
    /\ fs w' !! inFile = Some n.
Proof.
  intros Htemp Hout Hrun Hsrc.
  rewrite (job_ocr_failed _ _ _ _ _ _ _ _ _ Htemp Hrun e eq_refl).
  eexists _, _. split; [reflexivity |]. cbn. split; [reflexivity |].
  split; [| split].
  - apply Forall_app. split; [| repeat constructor].
    unfold job_prefix.
    destruct wait, (shlex.Split (Args (Ocr cfg))).2; repeat constructor.
  - apply in_or_app. right. by left.
  - by rewrite !RemoveAll_other.
Qed.

Lemma ocr_failure_keeps_source_witness :
  exists (w' : World) (tr : list Event),
    processFile (Scenario.env Scenario.failing_run (Scenario.answer 201)
                   Scenario.tree)
      Scenario.cfg "/scans/scan1.pdf" true Scenario.w0 = (Ret tt, w')
    /\ (trace w' = trace Scenario.w0 ++ tr)%list
    /\ Forall (fun ev => is_upload_event ev = false) tr
    /\ In (ELog ("Job failed: " +:+ "exit status 2")) tr
    /\ fs w' !! "/scans/scan1.pdf" = Some (NFile "%PDF-1.4").
Proof.
  apply (ocr_failure_keeps_source
           (Scenario.env Scenario.failing_run (Scenario.answer 201)
              Scenario.tree)
           Scenario.cfg "/scans/scan1.pdf" true Scenario.w0
           "/tmp/ocrmypdf-1" (<["/tmp/ocrmypdf-1" := NDir]> (fs Scenario.w0))
           "InputFileError" "exit status 2" (NFile "%PDF-1.4")).
  - reflexivity.
  - reflexivity.
  - reflexivity.
  - vm_compute. reflexivity.
Defined.

(** C1: in a job that reaches the upload step and obtains a response, the
    source file is removed exactly when the status code is 2xx: after a
    2xx answer the job returns and the source is gone; after any other
    answer the source is still there.  The OCR run has succeeded and left
    the source, a regular file outside the temp directory, in place. *)
Theorem source_removed_iff_2xx E cfg inFile wait w d fs2 out c content res derr :
  env_TempDir E (fs w) "/tmp" "ocrmypdf-*" = Ok d ->
  within d inFile = false ->
  env_Run E (Exec (Ocr cfg)) (ocrArgs cfg inFile d) (<[d := NDir]> (fs w))
  = (fs2, out, None) ->
  fs2 !! inFile = Some (NFile c) ->
  fs2 !! tempFileOf d inFile = Some (NFile content) ->
  env_NewRequest E MethodPut
    (Url (Server cfg) +:+ "/" +:+ filepath.Base (tempFileOf d inFile)) = None ->
  env_Do E (putRequest E (tempFileOf d inFile) (Url (Server cfg))
              (User (Server cfg)) (Pass (Server cfg)) content)
  = (Some res, derr) ->
  (is_2xx (StatusCode res) = true ->
     (processFile E cfg inFile wait w).1 = Ret tt
     /\ fs (processFile E cfg inFile wait w).2 !! inFile = None)
  /\ (is_2xx (StatusCode res) = false ->
        fs (processFile E cfg inFile wait w).2 !! inFile = Some (NFile c))
  /\ (fs (processFile E cfg inFile wait w).2 !! inFile = None
      <-> is_2xx (StatusCode res) = true).
Proof.
  intros Htemp Hout Hrun Hsrc Hfile Hreq Hdo.
  set (wu := {| fs := fs2;
                trace := trace w ++ job_prefix cfg inFile wait d out
                           ++ [ELog "Job finished successfully."] |}).
  assert (is_2xx (StatusCode res) = true ->
          (processFile E cfg inFile wait w).1 = Ret tt
          /\ fs (processFile E cfg inFile wait w).2 !! inFile = None) as Hyes.
  { intros Hc.
    pose proof (upload_2xx E _ _ _ _ wu content Hfile Hreq res derr Hdo Hc)
      as Hup.
    rewrite (job_upload_2xx _ _ _ _ _ _ _ _ _ Htemp Hrun _ _ eq_refl Hup Hc).
    cbn. split; [done |].
    rewrite !RemoveAll_other by done. by apply Remove_file with c. }
  assert (is_2xx (StatusCode res) = false ->
          fs (processFile E cfg inFile wait w).2 !! inFile = Some (NFile c))
    as Hno.
  { intros Hc. destruct (ReadAll (Body res)) as [text [err|]] eqn:Hbody.
    - pose proof (upload_other_unread E _ _ _ _ wu content Hfile Hreq
                    res derr text err Hdo Hc Hbody) as Hup.
      by rewrite (job_upload_fatal _ _ _ _ _ _ _ _ _ Htemp Hrun _ eq_refl Hup).
    - pose proof (upload_other_read E _ _ _ _ wu content Hfile Hreq
                    res derr text Hdo Hc Hbody) as Hup.
      rewrite (job_upload_other _ _ _ _ _ _ _ _ _ Htemp Hrun _ _ eq_refl Hup Hc).
      cbn. by rewrite !RemoveAll_other. }
  split; [done |]. split; [done |]. split.
  - intros Hgone. destruct (is_2xx (StatusCode res)); [done |].
    rewrite Hno in Hgone; done.
  - intros Hc. by apply Hyes.
Qed.

Lemma source_removed_iff_2xx_witness :
  let E := Scenario.env Scenario.copy_run (Scenario.answer 201) Scenario.tree in
  let run := processFile E Scenario.cfg "/scans/scan1.pdf" false Scenario.w0 in
  (is_2xx 201 = true -> run.1 = Ret tt /\ fs run.2 !! "/scans/scan1.pdf" = None)
  /\ (is_2xx 201 = false ->
        fs run.2 !! "/scans/scan1.pdf" = Some (NFile "%PDF-1.4"))
  /\ (fs run.2 !! "/scans/scan1.pdf" = None <-> is_2xx 201 = true).
Proof.
  intros E run.
  apply (source_removed_iff_2xx E Scenario.cfg "/scans/scan1.pdf" false
           Scenario.w0 "/tmp/ocrmypdf-1"
           (<["/tmp/ocrmypdf-1/scan1.pdf" := NFile "%PDF-1.4"]>
              (<["/tmp/ocrmypdf-1" := NDir]> (fs Scenario.w0)))
           "copied" "%PDF-1.4" "%PDF-1.4"
           {| Status := "status"; StatusCode := 201;
              Body := Scenario.body "reply" None |} None).
  - reflexivity.
  - reflexivity.
  - vm_compute. reflexivity.
  - vm_compute. reflexivity.
  - vm_compute. reflexivity.
  - reflexivity.
  - reflexivity.
Defined.

(** C4: when [client.Do] returns an error and no response, [uploadFile]
    logs the error and then dereferences the nil response, which panics:
    the upload does not return to the job, the job does not return to its
    caller, and the panic, recovered nowhere, ends the whole process. *)
Theorem transport_error_ends_process E cfg inFile wait w d fs2 out content derr :
  env_TempDir E (fs w) "/tmp" "ocrmypdf-*" = Ok d ->
  env_Run E (Exec (Ocr cfg)) (ocrArgs cfg inFile d) (<[d := NDir]> (fs w))
  = (fs2, out, None) ->
  fs2 !! tempFileOf d inFile = Some (NFile content) ->
  env_NewRequest E MethodPut
    (Url (Server cfg) +:+ "/" +:+ filepath.Base (tempFileOf d inFile)) = None ->
  env_Do E (putRequest E (tempFileOf d inFile) (Url (Server cfg))
              (User (Server cfg)) (Pass (Server cfg)) content)
  = (None, Some derr) ->
  (forall wu, fs wu = fs2 ->
     (uploadFile E (tempFileOf d inFile) (Url (Server cfg))
        (User (Server cfg)) (Pass (Server cfg)) wu).1
     = Panic "invalid memory address or nil pointer dereference")
  /\ (processFile E cfg inFile wait w).1
     = Panic "invalid memory address or nil pointer dereference"
  /\ In (ELog ("Error uploading file: " +:+ derr))
        (trace (processFile E cfg inFile wait w).2).
Proof.
  intros Htemp Hrun Hfile Hreq Hdo. split.
  - intros wu Hwu. rewrite <- Hwu in Hfile.
    by rewrite (upload_no_response E _ _ _ _ wu content Hfile Hreq _ Hdo).
  - set (wu := {| fs := fs2;
                  trace := trace w ++ job_prefix cfg inFile wait d out
                             ++ [ELog "Job finished successfully."] |}).
    pose proof (upload_no_response E _ _ _ _ wu content Hfile Hreq _ Hdo)
      as Hup.
    rewrite (job_upload_panic _ _ _ _ _ _ _ _ _ Htemp Hrun _ _ eq_refl Hup).
    cbn. split; [done |].
    rewrite !in_app_iff. left. right. right. cbn. auto.
Qed.

Lemma transport_error_ends_process_witness :
  let E := Scenario.env Scenario.copy_run Scenario.no_answer Scenario.tree in
  (forall wu,
     fs wu = <["/tmp/ocrmypdf-1/scan1.pdf" := NFile "%PDF-1.4"]>
               (<["/tmp/ocrmypdf-1" := NDir]> (fs Scenario.w0)) ->
     (uploadFile E (tempFileOf "/tmp/ocrmypdf-1" "/scans/scan1.pdf")
        (Url (Server Scenario.cfg)) (User (Server Scenario.cfg))
        (Pass (Server Scenario.cfg)) wu).1
     = Panic "invalid memory address or nil pointer dereference")
  /\ (processFile E Scenario.cfg "/scans/scan1.pdf" true Scenario.w0).1
     = Panic "invalid memory address or nil pointer dereference"
  /\ In (ELog ("Error uploading file: " +:+ "dial tcp: connection refused"))
        (trace (processFile E Scenario.cfg "/scans/scan1.pdf" true
                  Scenario.w0).2).
Proof.
  intros E.
  apply (transport_error_ends_process E Scenario.cfg "/scans/scan1.pdf" true
           Scenario.w0 "/tmp/ocrmypdf-1" _ "copied" "%PDF-1.4"
           "dial tcp: connection refused").
  - reflexivity.
  - vm_compute. reflexivity.
  - vm_compute. reflexivity.
  - reflexivity.
  - reflexivity.
Defined.

(** C6: when the OCR run exits 0 but the file expected at the temp output
    path cannot be opened, [uploadFile] ends the process through
    [log.Fatalf]: no request is sent, the job does not return, and the
    deferred clean-up does not run. *)
Theorem missing_output_ends_process E cfg inFile wait w d fs2 out :
  env_TempDir E (fs w) "/tmp" "ocrmypdf-*" = Ok d ->
  env_Run E (Exec (Ocr cfg)) (ocrArgs cfg inFile d) (<[d := NDir]> (fs w))
  = (fs2, out, None) ->
  fs2 !! tempFileOf d inFile = None ->
  exists tr : list Event,
    processFile E cfg inFile wait w
    = (Fatal, {| fs := fs2; trace := trace w ++ tr |})
    /\ last tr
       = Some (ELog ("Opening file: " +:+ "open " +:+ tempFileOf d inFile
                     +:+ ": no such file or directory"))
    /\ Forall (fun ev => match ev with EHttp _ | ERemove _ | ERemoveAll _ => False
                         | _ => True end) tr.
Proof.
  intros Htemp Hrun Hfile.
  set (wu := {| fs := fs2;
                trace := trace w ++ job_prefix cfg inFile wait d out
                           ++ [ELog "Job finished successfully."] |}).
  pose proof (upload_open_fails E (tempFileOf d inFile) (Url (Server cfg))
                (User (Server cfg)) (Pass (Server cfg)) wu Hfile) as Hup.
  rewrite (job_upload_fatal _ _ _ _ _ _ _ _ _ Htemp Hrun _ eq_refl Hup).
  eexists. split; [cbn; f_equal; f_equal; rewrite <- !app_assoc; reflexivity |].
  split.
  - rewrite !last_app. reflexivity.
  - apply Forall_app. split; [| repeat constructor].
    unfold job_prefix.
    destruct wait, (shlex.Split (Args (Ocr cfg))).2; repeat constructor.
Qed.

Lemma missing_output_ends_process_witness :
  exists tr : list Event,
    processFile (Scenario.env Scenario.silent_run (Scenario.answer 200)
                   Scenario.tree)
      Scenario.cfg "/scans/scan1.pdf" false Scenario.w0
    = (Fatal, {| fs := <["/tmp/ocrmypdf-1" := NDir]> (fs Scenario.w0);
                 trace := trace Scenario.w0 ++ tr |})
    /\ last tr
       = Some (ELog ("Opening file: " +:+ "open "
                     +:+ tempFileOf "/tmp/ocrmypdf-1" "/scans/scan1.pdf"
                     +:+ ": no such file or directory"))
    /\ Forall (fun ev => match ev with EHttp _ | ERemove _ | ERemoveAll _ => False
                         | _ => True end) tr.
Proof.
  apply (missing_output_ends_process
           (Scenario.env Scenario.silent_run (Scenario.answer 200)
              Scenario.tree)
           Scenario.cfg "/scans/scan1.pdf" false Scenario.w0
           "/tmp/ocrmypdf-1" _ "").
  - reflexivity.
  - reflexivity.
  - vm_compute. reflexivity.
Defined.

(** ** The OCR command line *)

Lemma Split_example :
  shlex.Split "--flag-a --flag-b 'two words'"
  = (["--flag-a"; "--flag-b"; "two words"], None).
Proof. reflexivity. Qed.

(** Double quotes group and allow escapes, a backslash escapes outside
    quotes, and nothing is expanded: [$HOME], [*.pdf], [|] and [;] are
    ordinary characters of a word. *)
Lemma Split_quoting :
  shlex.Split ("-o " +:+ str [dquote] +:+ "a \" +:+ str [dquote]
               +:+ " b" +:+ str [dquote] +:+ " c\ d $HOME *.pdf | ;")
  = (["-o"; "a " +:+ str [dquote] +:+ " b"; "c d"; "$HOME"; "*.pdf"; "|"; ";"],
     None).
Proof. reflexivity. Qed.



(** C5, at an argument string with an unclosed quote: the parse error is
    logged, and the job goes on all the same.  The executable is run with
    the words lexed before the error and the two paths, the result is
    uploaded, and with a 2xx answer the source is removed. *)
Theorem parse_error_still_runs :
  let E := Scenario.env Scenario.copy_run (Scenario.answer 201) Scenario.tree in
  let run := processFile E Scenario.bad_args_cfg "/scans/scan1.pdf" false
               Scenario.w0 in
  shlex.Split (Args (Ocr Scenario.bad_args_cfg))
  = (["-l"], Some "EOF found when expecting closing quote")
  /\ run.1 = Ret tt
  /\ In (ELog "Error parsing arguments: EOF found when expecting closing quote")
        (trace run.2)
  /\ List.filter is_exec_event (trace run.2)
     = [EExec "/usr/bin/ocrmypdf"
          ["-l"; "/scans/scan1.pdf"; "/tmp/ocrmypdf-1/scan1.pdf"]]
  /\ existsb is_upload_event (trace run.2) = true
  /\ fs run.2 !! "/scans/scan1.pdf" = None.
Proof.
  cbv zeta. split; [reflexivity |]. split; [reflexivity |].
  split; [vm_compute; auto 10 |]. split; [reflexivity |].
  split; vm_compute; reflexivity.
Qed.

(** The same for every argument string that does not lex: the command is
    run with whatever words came before the error. *)
Lemma parse_error_runs_command E cfg inFile wait w d err :
  env_TempDir E (fs w) "/tmp" "ocrmypdf-*" = Ok d ->
  (shlex.Split (Args (Ocr cfg))).2 = Some err ->
  exists tr : list Event,
    (trace (processFile E cfg inFile wait w).2 = trace w ++ tr)%list
    /\ In (ELog ("Error parsing arguments: " +:+ err)) tr
    /\ In (EExec (Exec (Ocr cfg)) (ocrArgs cfg inFile d)) tr.
Proof.
  intros Htemp Herr.
  destruct (job_run _ E cfg inFile wait w d not_exec_tail Htemp)
    as (r & w1 & tr & Htr & _ & Hrun).
  rewrite Hrun.
  assert (forall out,
            In (ELog ("Error parsing arguments: " +:+ err))
               (job_prefix cfg inFile wait d out)
            /\ In (EExec (Exec (Ocr cfg)) (ocrArgs cfg inFile d))
                  (job_prefix cfg inFile wait d out)) as Hin.
  { intros out. unfold job_prefix. rewrite Herr.
    destruct wait; cbn; auto 10. }
  destruct r; cbn.
  - eexists. split; [rewrite Htr, <- !app_assoc; reflexivity |].
    rewrite !in_app_iff. split; left; apply Hin.
  - eexists. split; [rewrite Htr; reflexivity |].
    rewrite !in_app_iff. split; left; apply Hin.
  - eexists. split; [rewrite Htr, <- !app_assoc; reflexivity |].
    rewrite !in_app_iff. split; left; apply Hin.
Qed.

(** ** The upload request *)

(** C8: whenever [uploadFile] can read the file and build the request, it
    sends exactly one request: a PUT to the base URL followed by a slash
    and the base name of the file, whose body is a closed multipart form
    with the single part [file], named after the base name and carrying
    the content of the file, with Basic authentication from the given user
    and password, and with the one header [Content-Type], the multipart
    form-data type with the boundary of the body. *)
Theorem upload_request E filename url user passwd w content :
  fs w !! filename = Some (NFile content) ->
  env_NewRequest E MethodPut (url +:+ "/" +:+ filepath.Base filename) = None ->
  exists (req : Request) (tr : list Event),
    (trace (uploadFile E filename url user passwd w).2
     = trace w ++ EOpen filename :: EHttp req :: tr)%list
    /\ Forall (fun ev => is_upload_event ev = false) tr
    /\ Method req = "PUT"
    /\ URL req = url +:+ "/" +:+ filepath.Base filename
    /\ multipart.parts (ReqBody req)
       = [{| multipart.FieldName := "file";
             multipart.FileName := filepath.Base filename;
             multipart.Data := content |}]
    /\ multipart.closed (ReqBody req) = true
    /\ multipart.boundary (ReqBody req) = env_randomBoundary E
    /\ BasicAuth req = Some (user, passwd)
    /\ Header req
       = {[ "Content-Type" := multipart.FormDataContentType (ReqBody req) ]}
    /\ (ContainsAny (env_randomBoundary E) multipart.tspecials = false ->
        multipart.FormDataContentType (ReqBody req)
        = "multipart/form-data; boundary=" +:+ env_randomBoundary E).
Proof.
  intros Hfile Hreq.
  exists (putRequest E filename url user passwd content).
  assert (exists tr : list Event,
            (trace (uploadFile E filename url user passwd w).2
             = trace w ++ EOpen filename
                 :: EHttp (putRequest E filename url user passwd content) :: tr)%list
            /\ Forall (fun ev => is_upload_event ev = false) tr) as (tr & Htr & Hall).
  { destruct (env_Do E (putRequest E filename url user passwd content))
      as [[res|] derr] eqn:Hdo.
    - destruct (is_2xx (StatusCode res)) eqn:Hc.
      + rewrite (upload_2xx E _ _ _ _ w content Hfile Hreq res derr Hdo Hc).
        eexists. split; [reflexivity |]. destruct derr; repeat constructor.
      + destruct (ReadAll (Body res)) as [text [err|]] eqn:Hbody.
        * rewrite (upload_other_unread E _ _ _ _ w content Hfile Hreq
                     res derr text err Hdo Hc Hbody).
          eexists. split; [reflexivity |]. destruct derr; repeat constructor.
        * rewrite (upload_other_read E _ _ _ _ w content Hfile Hreq
                     res derr text Hdo Hc Hbody).
          eexists. split; [reflexivity |]. destruct derr; repeat constructor.
    - rewrite (upload_no_response E _ _ _ _ w content Hfile Hreq derr Hdo).
      eexists. split; [reflexivity |]. destruct derr; repeat constructor. }
  exists tr. repeat split; try done.
  intros Hplain. unfold multipart.FormDataContentType, putRequest.
  cbn [ReqBody multipart.boundary]. by rewrite Hplain.
Qed.

Lemma upload_request_witness :
  let E := Scenario.env Scenario.copy_run (Scenario.answer 204) Scenario.tree in
  let w := {| fs := {[ "/tmp/ocrmypdf-1/scan1.pdf" := NFile "%PDF-1.4" ]};
              trace := [] |} in
  exists (req : Request) (tr : list Event),
    (trace (uploadFile E "/tmp/ocrmypdf-1/scan1.pdf" "http://dav/remote.php/u"
              "u" "p" w).2
     = trace w ++ EOpen "/tmp/ocrmypdf-1/scan1.pdf" :: EHttp req :: tr)%list
    /\ Forall (fun ev => is_upload_event ev = false) tr
    /\ Method req = "PUT"
    /\ URL req = "http://dav/remote.php/u" +:+ "/"
                 +:+ filepath.Base "/tmp/ocrmypdf-1/scan1.pdf"
    /\ multipart.parts (ReqBody req)
       = [{| multipart.FieldName := "file";
             multipart.FileName := filepath.Base "/tmp/ocrmypdf-1/scan1.pdf";
             multipart.Data := "%PDF-1.4" |}]
    /\ multipart.closed (ReqBody req) = true
    /\ multipart.boundary (ReqBody req) = env_randomBoundary E
    /\ BasicAuth req = Some ("u", "p")
    /\ Header req
       = {[ "Content-Type" := multipart.FormDataContentType (ReqBody req) ]}
    /\ (ContainsAny (env_randomBoundary E) multipart.tspecials = false ->
        multipart.FormDataContentType (ReqBody req)
        = "multipart/form-data; boundary=" +:+ env_randomBoundary E).
Proof.
  intros E w.
  apply (upload_request E "/tmp/ocrmypdf-1/scan1.pdf" "http://dav/remote.php/u"
           "u" "p" w "%PDF-1.4").
  - reflexivity.
  - reflexivity.
Defined.

(** The job calls [uploadFile] on its temp output file with the URL, user
    and password of the configuration. *)
Lemma job_sends_configured_request E cfg inFile wait w d fs2 out content :
  env_TempDir E (fs w) "/tmp" "ocrmypdf-*" = Ok d ->
  env_Run E (Exec (Ocr cfg)) (ocrArgs cfg inFile d) (<[d := NDir]> (fs w))
  = (fs2, out, None) ->
  fs2 !! tempFileOf d inFile = Some (NFile content) ->
  env_NewRequest E MethodPut
    (Url (Server cfg) +:+ "/" +:+ filepath.Base (tempFileOf d inFile)) = None ->
  In (EHttp (putRequest E (tempFileOf d inFile) (Url (Server cfg))
               (User (Server cfg)) (Pass (Server cfg)) content))
     (trace (processFile E cfg inFile wait w).2).
Proof.
  intros Htemp Hrun Hfile Hreq.
  set (wu := {| fs := fs2;
                trace := trace w ++ job_prefix cfg inFile wait d out
                           ++ [ELog "Job finished successfully."] |}).
  set (req := putRequest _ _ _ _ _ _).
  assert (In (EHttp req)
            (trace (uploadFile E (tempFileOf d inFile) (Url (Server cfg))
                      (User (Server cfg)) (Pass (Server cfg)) wu).2)) as Hin.
  { destruct (env_Do E req) as [[res|] derr] eqn:Hdo.
    - destruct (is_2xx (StatusCode res)) eqn:Hc.
      + rewrite (upload_2xx E _ _ _ _ wu content Hfile Hreq res derr Hdo Hc).
        cbn. apply in_or_app. right. cbn. auto.
      + destruct (ReadAll (Body res)) as [text [err|]] eqn:Hbody.
        * rewrite (upload_other_unread E _ _ _ _ wu content Hfile Hreq
                     res derr text err Hdo Hc Hbody).
          cbn. apply in_or_app. right. cbn. auto.
        * rewrite (upload_other_read E _ _ _ _ wu content Hfile Hreq
                     res derr text Hdo Hc Hbody).
          cbn. apply in_or_app. right. cbn. auto.
    - rewrite (upload_no_response E _ _ _ _ wu content Hfile Hreq derr Hdo).
      cbn. apply in_or_app. right. cbn. auto. }
  destruct (uploadFile E (tempFileOf d inFile) (Url (Server cfg))
              (User (Server cfg)) (Pass (Server cfg)) wu)
    as [[res| |msg] w3] eqn:Hup; cbn in Hin.
  - destruct (is_2xx (StatusCode res)) eqn:Hc.
    + rewrite (job_upload_2xx _ _ _ _ _ _ _ _ _ Htemp Hrun _ _ eq_refl Hup Hc).
      cbn. apply in_or_app. by left.
    + rewrite (job_upload_other _ _ _ _ _ _ _ _ _ Htemp Hrun _ _ eq_refl Hup Hc).
      cbn. apply in_or_app. by left.
  - by rewrite (job_upload_fatal _ _ _ _ _ _ _ _ _ Htemp Hrun _ eq_refl Hup).
  - rewrite (job_upload_panic _ _ _ _ _ _ _ _ _ Htemp Hrun _ _ eq_refl Hup).
    cbn. apply in_or_app. by left.
Qed.

(** ** The temporary directory *)

(** C2, at two jobs that [uploadFile] ends with [log.Fatal]: an OCR run
    that exits 0 without writing its output, and an upload answered with
    status 500 whose body cannot be read.  [processFile] defers
    [os.RemoveAll] and calls it once more before it returns, but
    [os.Exit] runs no deferred call: both jobs made their temp directory,
    and both leave it behind. *)
Lemma tempdir_left_on_exit :
  let E1 := Scenario.env Scenario.silent_run (Scenario.answer 200)
              Scenario.tree in
  let E2 := Scenario.env Scenario.copy_run (Scenario.broken_answer 500)
              Scenario.tree in
  let run1 := processFile E1 Scenario.cfg "/scans/scan1.pdf" false Scenario.w0 in
  let run2 := processFile E2 Scenario.cfg "/scans/scan1.pdf" false Scenario.w0 in
  (run1.1 = Fatal
   /\ In (EMkdirTemp "/tmp/ocrmypdf-1") (trace run1.2)
   /\ fs run1.2 !! "/tmp/ocrmypdf-1" = Some NDir)
  /\ (run2.1 = Fatal
      /\ In (EMkdirTemp "/tmp/ocrmypdf-1") (trace run2.2)
      /\ fs run2.2 !! "/tmp/ocrmypdf-1" = Some NDir
      /\ fs run2.2 !! "/tmp/ocrmypdf-1/scan1.pdf" = Some (NFile "%PDF-1.4")).
Proof.
  cbv zeta. repeat split; try (vm_compute; reflexivity); vm_compute; auto 10.
Qed.

(** On every other exit the clean-up is done: whenever a job ends without
    the process exiting (the job returns, or it panics), its temp
    directory was made at the staging step and nothing is left at or
    below it. *)
Theorem tempdir_removed_unless_exit E cfg inFile wait w r w' :
  processFile E cfg inFile wait w = (r, w') ->
  r <> Fatal ->
  exists (d : string) (tr : list Event),
    env_TempDir E (fs w) "/tmp" "ocrmypdf-*" = Ok d
    /\ (trace w' = trace w ++ tr)%list
    /\ In (EMkdirTemp d) tr
    /\ forall p, within d p = true -> fs w' !! p = None.
Proof.
  intros Hrun Hr.
  destruct (env_TempDir E (fs w) "/tmp" "ocrmypdf-*") as [d|err] eqn:Htemp.
  2:{ rewrite (job_no_tempdir _ _ _ _ _ _ Htemp) in Hrun. by simplify_eq. }
  destruct (job_run _ E cfg inFile wait w d not_exec_tail Htemp)
    as (r1 & w1 & tr & Htr & _ & Hjob).
  rewrite Hjob in Hrun. exists d.
  destruct r1; simplify_eq; cbn.
  - eexists. split; [done |].
    split; [rewrite Htr, <- !app_assoc; reflexivity |].
    split; [| intros p Hp; by apply RemoveAll_gone].
    apply in_or_app. left. apply job_prefix_mkdir.
  - eexists. split; [done |].
    split; [rewrite Htr, <- !app_assoc; reflexivity |].
    split; [| intros p Hp; by apply RemoveAll_gone].
    apply in_or_app. left. apply job_prefix_mkdir.
Qed.

Lemma tempdir_removed_unless_exit_witness :
  exists (d : string) (tr : list Event),
    env_TempDir (Scenario.env Scenario.copy_run (Scenario.answer 500)
                   Scenario.tree)
      (fs Scenario.w0) "/tmp" "ocrmypdf-*" = Ok d
    /\ (trace (processFile
                 (Scenario.env Scenario.copy_run (Scenario.answer 500)
                    Scenario.tree)
                 Scenario.cfg "/scans/scan1.pdf" true Scenario.w0).2
        = trace Scenario.w0 ++ tr)%list
    /\ In (EMkdirTemp d) tr
    /\ forall p, within d p = true ->
         fs (processFile
               (Scenario.env Scenario.copy_run (Scenario.answer 500)
                  Scenario.tree)
               Scenario.cfg "/scans/scan1.pdf" true Scenario.w0).2 !! p = None.
Proof.
  apply (tempdir_removed_unless_exit
           (Scenario.env Scenario.copy_run (Scenario.answer 500) Scenario.tree)
           Scenario.cfg "/scans/scan1.pdf" true Scenario.w0 (Ret tt)).
  - vm_compute. reflexivity.
  - discriminate.
Defined.

(** The exit paths the spec names all return: success, OCR failure, and
    an upload answered with a status outside 2xx whose body can be read. *)
Lemma named_exit_paths_return E cfg inFile wait w d fs2 out oerr :
  env_TempDir E (fs w) "/tmp" "ocrmypdf-*" = Ok d ->
  env_Run E (Exec (Ocr cfg)) (ocrArgs cfg inFile d) (<[d := NDir]> (fs w))
  = (fs2, out, oerr) ->
  (is_Some oerr -> (processFile E cfg inFile wait w).1 = Ret tt)
  /\ (forall content res derr,
        oerr = None ->
        fs2 !! tempFileOf d inFile = Some (NFile content) ->
        env_NewRequest E MethodPut
          (Url (Server cfg) +:+ "/" +:+ filepath.Base (tempFileOf d inFile))
        = None ->
        env_Do E (putRequest E (tempFileOf d inFile) (Url (Server cfg))
                    (User (Server cfg)) (Pass (Server cfg)) content)
        = (Some res, derr) ->
        is_2xx (StatusCode res) = true \/ (ReadAll (Body res)).2 = None ->
        (processFile E cfg inFile wait w).1 = Ret tt).
Proof.
  intros Htemp Hrun. split.
  - intros [e ->]. by rewrite (job_ocr_failed _ _ _ _ _ _ _ _ _ Htemp Hrun e).
  - intros content res derr -> Hfile Hreq Hdo Hcase.
    set (wu := {| fs := fs2;
                  trace := trace w ++ job_prefix cfg inFile wait d out
                             ++ [ELog "Job finished successfully."] |}).
    destruct (is_2xx (StatusCode res)) eqn:Hc.
    + pose proof (upload_2xx E _ _ _ _ wu content Hfile Hreq res derr Hdo Hc)
        as Hup.
      by rewrite (job_upload_2xx _ _ _ _ _ _ _ _ _ Htemp Hrun _ _ eq_refl Hup Hc).
    + destruct Hcase as [? | Hbody]; [done |].
      destruct (ReadAll (Body res)) as [text err] eqn:Hread.
      cbn in Hbody. subst err.
      pose proof (upload_other_read E _ _ _ _ wu content Hfile Hreq
                    res derr text Hdo Hc Hread) as Hup.
      by rewrite (job_upload_other _ _ _ _ _ _ _ _ _ Htemp Hrun _ _ eq_refl Hup Hc).
Qed.

(** ** The start-up scan *)

Lemma WalkNode_ind (P : WalkNode -> Prop) :
  (forall name, P (WFile name)) ->
  (forall name err, P (WLstatErr name err)) ->
  (forall name readErr entries,
     Forall P entries -> P (WDir name readErr entries)) ->
  forall n, P n.
Proof.
  intros Hfile Hlstat Hdir. fix IH 1. intros [name|name err|name readErr entries].
  - apply Hfile.
  - apply Hlstat.
  - apply Hdir. revert entries. fix IHl 1. intros [|c l].
    + constructor.
    + constructor; [apply IH | apply IHl].
Qed.

Lemma emits_ret {A} (P : Event -> Prop) (a : A) : emits P (mret a).
Proof.
  intros w r w' [= <- <-]. exists []. split; [by rewrite app_nil_r | done].
Qed.

Lemma emits_bind {A B} (P : Event -> Prop) (m : M A) (f : A -> M B) :
  emits P m -> (forall a, emits P (f a)) -> emits P (m ≫= f).
Proof.
  intros Hm Hf w r w'. unfold mbind, M_bind.
  destruct (m w) as [[a| |msg] w1] eqn:Hrun;
    destruct (Hm _ _ _ Hrun) as (tr1 & Htr1 & Hall1).
  - intros Hk. destruct (Hf _ _ _ _ Hk) as (tr2 & Htr2 & Hall2).
    exists (tr1 ++ tr2)%list.
    split; [by rewrite Htr2, Htr1, app_assoc | by apply Forall_app].
  - intros [= <- <-]. eauto.
  - intros [= <- <-]. eauto.
Qed.

Lemma emits_Println (P : Event -> Prop) msg :
  P (ELog msg) -> emits P (log.Println msg).
Proof. intros HP w r w' [= <- <-]. exists [ELog msg]. by repeat constructor. Qed.

Lemma emits_panic {A} (P : Event -> Prop) msg : emits P (panic (A := A) msg).
Proof.
  intros w r w' [= <- <-]. exists []. split; [by rewrite app_nil_r | done].
Qed.

Lemma job_prefix_all (P : Event -> Prop) cfg inFile wait d out :
  (forall msg, P (ELog msg)) -> P (EMkdirTemp d) ->
  (forall name args, P (EExec name args)) ->
  (wait = true -> P (ESleep 5)) ->
  Forall P (job_prefix cfg inFile wait d out).
Proof.
  intros Plog Pmk Pexec Psleep. unfold job_prefix.
  destruct wait, (shlex.Split (Args (Ocr cfg))).2; repeat constructor; auto.
Qed.

(** A job emits a sleep only when it was asked to wait. *)
Lemma processFile_emits (P : Event -> Prop) E cfg inFile wait :
  tail_event P -> (forall d, P (EMkdirTemp d)) ->
  (forall name args, P (EExec name args)) ->
  (wait = true -> P (ESleep 5)) ->
  emits P (processFile E cfg inFile wait).
Proof.
  intros Ptail Pmk Pexec Psleep w r w' Hrun.
  destruct (env_TempDir E (fs w) "/tmp" "ocrmypdf-*") as [d|err] eqn:Htemp.
  - destruct (job_run P E cfg inFile wait w d Ptail Htemp)
      as (r1 & w1 & tr & Htr & Hall & Hjob).
    rewrite Hjob in Hrun.
    pose proof (job_prefix_all P cfg inFile wait d
                  (env_Run E (Exec (Ocr cfg)) (ocrArgs cfg inFile d)
                     (<[d := NDir]> (fs w))).1.2
                  (proj1 Ptail) (Pmk d) Pexec Psleep) as Hpre.
    destruct Ptail as (_ & _ & _ & _ & Pall).
    destruct r1; simplify_eq; cbn.
    + eexists. split; [rewrite Htr, <- !app_assoc; reflexivity |].
      apply Forall_app. split; [done |]. apply Forall_app. split; [done |].
      by repeat constructor.
    + eexists. split; [rewrite Htr; reflexivity |]. by apply Forall_app.
    + eexists. split; [rewrite Htr, <- !app_assoc; reflexivity |].
      apply Forall_app. split; [done |]. apply Forall_app. split; [done |].
      by repeat constructor.
  - rewrite (job_no_tempdir _ _ _ _ _ _ Htemp) in Hrun. simplify_eq. cbn.
    destruct Ptail as (Plog & _).
    eexists. split; [reflexivity |].
    destruct wait; repeat constructor; auto.
Qed.

Lemma bind_assoc {A B C} (m : M A) (f : A -> M B) (g : B -> M C) w :
  ((m ≫= f) ≫= g) w = (m ≫= fun a => f a ≫= g) w.
Proof. unfold mbind, M_bind. by destruct (m w) as [[a| |msg] w1]. Qed.

Lemma bind_ret_unit (m : M unit) w : (m ;; mret tt) w = m w.
Proof.
  unfold mbind, M_bind, mret, M_ret. by destruct (m w) as [[[]| |msg] w1].
Qed.

Lemma bind_ext {A B} (m : M A) (f g : A -> M B) w :
  (forall a w1, f a w1 = g a w1) -> (m ≫= f) w = (m ≫= g) w.
Proof.
  intros Hfg. unfold mbind, M_bind. destruct (m w) as [[a| |msg] w1]; auto.
Qed.

Lemma run_visits_app E cfg l1 l2 w :
  run_visits E cfg (l1 ++ l2) w
  = (run_visits E cfg l1 ;; run_visits E cfg l2) w.
Proof.
  revert w. induction l1 as [|[name|readErr|err] l1 IH]; intros w; cbn.
  - reflexivity.
  - rewrite bind_assoc. by apply bind_ext.
  - rewrite bind_assoc. by apply bind_ext.
  - rewrite bind_assoc. apply bind_ext. intros. reflexivity.
Qed.

Section Scan.
Context (E : Env) (cfg : Config).

Local Abbreviation fn := (processDir_fn E cfg).

Lemma fn_file path name w :
  fn path (Some {| Name := name; IsDir := false |}) None w
  = (run_visits E cfg [VJob name] ;; mret None) w.
Proof.
  unfold processDir_fn, when, on_err. cbn.
  unfold mbind, M_bind, mret, M_ret.
  by destruct (processFile _ _ _ _ _) as [[[]| |msg] w1].
Qed.

Lemma fn_dir path name readErr w :
  fn path (Some {| Name := name; IsDir := true |}) readErr w
  = (run_visits E cfg [VDir readErr] ;; mret None) w.
Proof.
  unfold processDir_fn, when. cbn. unfold mbind, M_bind, mret, M_ret.
  by destruct (on_err _ _ _) as [[[]| |msg] w1].
Qed.

Lemma fn_nil path err w :
  fn path None (Some err) w = (run_visits E cfg [VNil err] ;; mret None) w.
Proof.
  unfold processDir_fn, on_err. cbn. unfold mbind, M_bind.
  by destruct (log.Println _ _) as [[[]| |msg] w1].
Qed.

Lemma range_visits entries :
  Forall (fun c => forall path w,
            walk fn path c w
            = (run_visits E cfg (visits c) ;; mret None) w) entries ->
  forall path w,
    range fn path entries w
    = (run_visits E cfg (visits_each entries) ;; mret None) w.
Proof.
  induction 1 as [|c l Hc _ IH]; intros path w; cbn [range visits_each].
  - reflexivity.
  - unfold mbind, M_bind. rewrite Hc, run_visits_app.
    unfold mbind, M_bind, mret, M_ret.
    destruct (run_visits E cfg (visits c) w) as [[[]| |msg] w1]; [| done..].
    rewrite IH. reflexivity.
Qed.

Lemma walk_visits n :
  forall path w,
    walk fn path n w = (run_visits E cfg (visits n) ;; mret None) w.
Proof.
  induction n as [name|name err|name readErr entries IH] using WalkNode_ind;
    intros path w.
  - apply fn_file.
  - apply fn_nil.
  - change (walk fn path (WDir name readErr entries) w)
      with ((err1 ← fn path (Some {| Name := name; IsDir := true |}) readErr;
             if is_Some_b readErr || is_Some_b err1 then mret err1
             else range fn path entries) w).
    change (visits (WDir name readErr entries))
      with (VDir readErr ::
            (if is_Some_b readErr then [] else visits_each entries)).
    unfold mbind at 1, M_bind at 1. rewrite fn_dir.
    cbn [run_visits]. unfold mbind, M_bind, mret, M_ret.
    destruct (on_err readErr log.Println w) as [[[]| |msg] w1] eqn:Hlog;
      [| done..].
    destruct readErr as [e|]; cbn; [done |].
    rewrite (range_visits _ IH). reflexivity.
Qed.

Lemma processDir_visits w :
  processDir E cfg w
  = run_visits E cfg (visits (env_Walk E (Path (Watcher cfg)))) w.
Proof.
  unfold processDir, filepath_Walk.
  unfold mbind at 1 2, M_bind at 1 2. rewrite walk_visits.
  unfold mbind, M_bind, mret, M_ret.
  by destruct (run_visits _ _ _ _) as [[[]| |msg] w1].
Qed.
End Scan.

Lemma main_reaches_loop E w cfg w' :
  main_startup E w = (Ret cfg, w') ->
  exists w2 : World,
    processDir E cfg
      {| fs := fs w;
         trace := trace w ++ [ELog ("Upload-URL: " +:+ Url (Server cfg));
                              ELog "Processing old files first"] |}
    = (Ret tt, w2)
    /\ w' = {| fs := fs w2;
               trace := trace w2 ++
                 [ELog ("Watching " +:+ Path (Watcher cfg));
                  EWatch (Path (Watcher cfg)) [InCloseWrite; InMovedTo]] |}.
Proof.
  unfold main_startup, readEnv, log.Fatal, log.Println, emit,
    mbind, M_bind, mret, M_ret.
  intros Hmain.
  destruct (env_Process E _) as [cfg0|err]; [| done].
  destruct (env_TemplateParse E _); [done |].
  destruct (env_TemplateExecute E _ _) as [tpl|err]; [| done].
  cbn in Hmain.
  destruct (env_Stat E _) as [info|err]; [| done].
  destruct (IsDir info); cbn in Hmain; [| done].
  match type of Hmain with
  | context [processDir E ?c ?W] =>
      destruct (processDir E c W) as [[[]| |msg] w2] eqn:Hscan; [| done..]
  end.
  cbn in Hmain. destruct (env_Watch E _ _); [done |].
  injection Hmain as <- <-. exists w2. split; [| same_world].
  rewrite <- Hscan. f_equal. same_world.
Qed.

Lemma run_visits_emits (P : Event -> Prop) E cfg l :
  tail_event P -> (forall d, P (EMkdirTemp d)) ->
  (forall name args, P (EExec name args)) ->
  emits P (run_visits E cfg l).
Proof.
  intros Ptail Pmk Pexec.
  induction l as [|[name|readErr|err] l IH]; cbn [run_visits].
  - apply emits_ret.
  - apply emits_bind; [| done]. by apply processFile_emits.
  - apply emits_bind; [| done].
    destruct readErr; [apply emits_Println, Ptail | apply emits_ret].
  - apply emits_bind; [apply emits_Println, Ptail |].
    intros _. apply emits_panic.
Qed.

(** What holds of the scan at start-up: when [main] reaches its event
    loop, the scan has run before the watch was set up, and it ran to its
    end.  The scan is the sequence of the visits of the walk: for every
    non-directory entry the walk finds, one call
    [processFile cfg (Path/name) false], one after the other in the order
    of the walk.  No event of the scan is a settle-wait. *)
Theorem startup_scan E w cfg w' :
  main_startup E w = (Ret cfg, w') ->
  exists (w1 w2 : World) (tr : list Event),
    fs w1 = fs w
    /\ (trace w1 = trace w ++ [ELog ("Upload-URL: " +:+ Url (Server cfg));
                               ELog "Processing old files first"])%list
    /\ processDir E cfg w1 = (Ret tt, w2)
    /\ (forall w0,
          processDir E cfg w0
          = run_visits E cfg (visits (env_Walk E (Path (Watcher cfg)))) w0)
    /\ (trace w2 = trace w1 ++ tr)%list
    /\ Forall no_sleep tr
    /\ fs w' = fs w2
    /\ (trace w' = trace w2 ++
          [ELog ("Watching " +:+ Path (Watcher cfg));
           EWatch (Path (Watcher cfg)) [InCloseWrite; InMovedTo]])%list.
Proof.
  intros Hmain. apply main_reaches_loop in Hmain as (w2 & Hscan & ->).
  pose proof Hscan as Hrun. rewrite processDir_visits in Hrun.
  apply (run_visits_emits no_sleep) in Hrun as (tr & Htr & Hall);
    [| by repeat split | done..].
  exists {| fs := fs w;
            trace := trace w ++ [ELog ("Upload-URL: " +:+ Url (Server cfg));
                                 ELog "Processing old files first"] |}, w2, tr.
  split; [reflexivity |]. split; [reflexivity |].
  split; [exact Hscan |]. split; [apply processDir_visits |].
  by repeat split.
Qed.

Lemma startup_scan_witness :
  let E := Scenario.env Scenario.copy_run (Scenario.answer 201) Scenario.tree in
  let w' := (main_startup E Scenario.w0).2 in
  exists (w1 w2 : World) (tr : list Event),
    fs w1 = fs Scenario.w0
    /\ (trace w1
        = trace Scenario.w0
            ++ [ELog ("Upload-URL: " +:+ Url (Server Scenario.startup_cfg));
                ELog "Processing old files first"])%list
    /\ processDir E Scenario.startup_cfg w1 = (Ret tt, w2)
    /\ (forall w0,
          processDir E Scenario.startup_cfg w0
          = run_visits E Scenario.startup_cfg
              (visits (env_Walk E (Path (Watcher Scenario.startup_cfg)))) w0)
    /\ (trace w2 = trace w1 ++ tr)%list
    /\ Forall no_sleep tr
    /\ fs w' = fs w2
    /\ (trace w' = trace w2 ++
          [ELog ("Watching " +:+ Path (Watcher Scenario.startup_cfg));
           EWatch (Path (Watcher Scenario.startup_cfg))
             [InCloseWrite; InMovedTo]])%list.
Proof.
  intros E w'.
  apply (startup_scan E Scenario.w0 Scenario.startup_cfg w').
  vm_compute. reflexivity.
Defined.

(** C9, at a watched directory with a subdirectory: [Walk] hands the
    function the path of every entry, [/scans/sub/a.pdf] and
    [/scans/sub/b.pdf] for the two files of the subdirectory, but the
    function passes the watched path joined with the name of the entry to
    the job.  The scan runs three jobs: two for [/scans/a.pdf], the second
    after the first has removed it, and one for [/scans/b.pdf], which is
    not there.  The two files of the subdirectory get no job and are
    still in place when the scan returns. *)
Theorem nested_entry_wrong_path :
  let E := Scenario.env Scenario.copy_run (Scenario.answer 201)
             Faults.nested_tree in
  let run := processDir E Scenario.cfg Faults.nested_w0 in
  trace (walk note_path "/scans" Faults.nested_tree
           {| fs := fs Faults.nested_w0; trace := [] |}).2
  = [ELog "/scans"; ELog "/scans/a.pdf"; ELog "/scans/sub";
     ELog "/scans/sub/a.pdf"; ELog "/scans/sub/b.pdf"]
  /\ run.1 = Ret tt
  /\ List.filter is_exec_event (trace run.2)
     = [ocr_command Scenario.cfg "/scans/a.pdf" "/tmp/ocrmypdf-1";
        ocr_command Scenario.cfg "/scans/a.pdf" "/tmp/ocrmypdf-1";
        ocr_command Scenario.cfg "/scans/b.pdf" "/tmp/ocrmypdf-1"]
  /\ fs run.2 !! "/scans/a.pdf" = None
  /\ fs run.2 !! "/scans/sub/a.pdf" = Some (NFile "%PDF-sub-a")
  /\ fs run.2 !! "/scans/sub/b.pdf" = Some (NFile "%PDF-sub-b").
Proof.
  cbv zeta. repeat split; vm_compute; reflexivity.
Qed.

(** The same for every entry: the path [Walk] hands the function plays no
    part in what the function does. *)
Lemma scan_ignores_walk_path E cfg path path' info err w :
  processDir_fn E cfg path info err w = processDir_fn E cfg path' info err w.
Proof. reflexivity. Qed.

(** The walk of the scenario finds two files and a directory it cannot
    read: the read error is logged and the scan goes on to the next file. *)
Lemma scan_of_tree :
  visits Scenario.tree
  = [VDir None; VJob "scan1.pdf"; VDir (Some "permission denied");
     VJob "scan2.pdf"].
Proof. reflexivity. Qed.

(** C10, at a walk in which the [Lstat] of an entry fails: [Walk] hands the
    function the error and no [FileInfo]; the function logs the error and
    then calls [IsDir] on the nil [FileInfo].  The panic ends the scan and
    the process: the entry that follows, a file that is there, gets no
    job. *)
Theorem lstat_error_ends_scan :
  let E := Scenario.env Scenario.copy_run (Scenario.answer 201)
             Scenario.racy_tree in
  visits Scenario.racy_tree
  = [VDir None; VNil "lstat /scans/gone.pdf: no such file or directory";
     VJob "scan1.pdf"]
  /\ processDir E Scenario.cfg Scenario.w0
     = (Panic "invalid memory address or nil pointer dereference",
        {| fs := fs Scenario.w0;
           trace := [ELog "lstat /scans/gone.pdf: no such file or directory"] |}).
Proof. split; reflexivity. Qed.

(** The same for every entry that comes without a [FileInfo]. *)
Lemma walk_error_without_info E cfg path err w :
  processDir_fn E cfg path None (Some err) w
  = (Panic "invalid memory address or nil pointer dereference",
     {| fs := fs w; trace := trace w ++ [ELog err] |}).
Proof. reflexivity. Qed.

(** An error of reading a directory comes with the [FileInfo] of the
    directory: it is logged and the function returns nil. *)
Lemma walk_error_with_info E cfg path name err w :
  processDir_fn E cfg path (Some {| Name := name; IsDir := true |}) (Some err) w
  = (Ret None, {| fs := fs w; trace := trace w ++ [ELog err] |}).
Proof. reflexivity. Qed.

(** ** Further properties of [uploadFile] *)

(** Membership of an event in a trace given as appended pieces. *)
Ltac find_event :=
  cbn; repeat (rewrite in_app_iff; cbn); auto 12.

Lemma actions_app (l1 l2 : list Event) :
  actions (l1 ++ l2) = (actions l1 ++ actions l2)%list.
Proof. apply List.filter_app. Qed.

Lemma actions_err_log pre err : actions (err_log pre err) = [].
Proof. by destruct err. Qed.

(** The events of every run of [uploadFile], log lines apart: the file is
    opened, and at most one request follows.  A run that returns or panics
    has sent its request. *)
Lemma upload_actions E filename url user passwd w r w' :
  uploadFile E filename url user passwd w = (r, w') ->
  exists tr : list Event,
    (trace w' = trace w ++ tr)%list
    /\ (actions tr = [EOpen filename] /\ r = Fatal
        \/ exists req, actions tr = [EOpen filename; EHttp req]).
Proof.
  run_upload. intros Hrun.
  repeat (case_match; simplify_eq/=);
    (eexists; split; [same_world | cbn; eauto]).
Qed.

(** X1: [uploadFile] sends nothing unless the path holds a regular file and
    the request can be built: a missing file, a directory, or a URL that
    [http.NewRequest] rejects each end the process after the file was
    opened (or not), with no request sent and the file system as it was. *)
Theorem upload_refused E filename url user passwd w :
  fs w !! filename = None
  \/ fs w !! filename = Some NDir
  \/ (exists err,
        env_NewRequest E MethodPut (url +:+ "/" +:+ filepath.Base filename)
        = Some err) ->
  exists tr : list Event,
    uploadFile E filename url user passwd w
    = (Fatal, {| fs := fs w; trace := trace w ++ tr |})
    /\ actions tr = [EOpen filename].
Proof.
  intros [Hnone | [Hdir | [err Hreq]]].
  - rewrite (upload_open_fails _ _ _ _ _ _ Hnone). eauto.
  - rewrite (upload_directory _ _ _ _ _ _ Hdir). eauto.
  - destruct (fs w !! filename) as [[content|]|] eqn:Hfile.
    + rewrite (upload_bad_request _ _ _ _ _ _ content Hfile err Hreq). eauto.
    + rewrite (upload_directory _ _ _ _ _ _ Hfile). eauto.
    + rewrite (upload_open_fails _ _ _ _ _ _ Hfile). eauto.
Qed.

Lemma upload_refused_witness :
  let w := {| fs := {[ "/scans" := NDir ]}; trace := [] |} in
  exists tr : list Event,
    uploadFile Faults.base "/scans" "http://dav/remote.php/u" "u" "p" w
    = (Fatal, {| fs := fs w; trace := trace w ++ tr |})
    /\ actions tr = [EOpen "/scans"].
Proof.
  intros w.
  apply (upload_refused Faults.base "/scans" "http://dav/remote.php/u" "u" "p" w).
  right. left. reflexivity.
Defined.

(** X2: Once [client.Do] has answered with a response, the status code and
    the body decide: with a 2xx code the body is not read and the
    response is returned; with any other code the body is read and
    logged, and a body that cannot be read ends the process.  An error
    that comes along with the response is logged and changes nothing
    else.  The response is returned with its body closed. *)
Theorem upload_outcome E filename url user passwd w content res derr :
  fs w !! filename = Some (NFile content) ->
  env_NewRequest E MethodPut (url +:+ "/" +:+ filepath.Base filename) = None ->
  env_Do E (putRequest E filename url user passwd content) = (Some res, derr) ->
  (uploadFile E filename url user passwd w).1
  = (if is_2xx (StatusCode res) then Ret (closed_response res)
     else match (ReadAll (Body res)).2 with
          | None => Ret (closed_response res)
          | Some _ => Fatal
          end)
  /\ (forall e, derr = Some e ->
        In (ELog ("Error uploading file: " +:+ e))
           (trace (uploadFile E filename url user passwd w).2))
  /\ (is_2xx (StatusCode res) = false ->
      In (ELog match (ReadAll (Body res)).2 with
               | None => (ReadAll (Body res)).1
               | Some e => e
               end)
         (trace (uploadFile E filename url user passwd w).2)).
Proof.
  intros Hfile Hreq Hdo.
  destruct (is_2xx (StatusCode res)) eqn:Hc.
  - rewrite (upload_2xx E _ _ _ _ w content Hfile Hreq res derr Hdo Hc). cbn.
    split; [done |]. split; [| done].
    intros e ->. find_event.
  - destruct (ReadAll (Body res)) as [text [err|]] eqn:Hbody; cbn.
    + rewrite (upload_other_unread E _ _ _ _ w content Hfile Hreq
                 res derr text err Hdo Hc Hbody). cbn.
      split; [done |]. split.
      * intros e ->. find_event.
      * intros _. find_event.
    + rewrite (upload_other_read E _ _ _ _ w content Hfile Hreq
                 res derr text Hdo Hc Hbody). cbn.
      split; [done |]. split.
      * intros e ->. find_event.
      * intros _. find_event.
Qed.

Lemma upload_outcome_witness :
  let w := {| fs := {[ "/tmp/ocrmypdf-1/scan1.pdf" := NFile "%PDF-1.4" ]};
              trace := [] |} in
  let E := Scenario.env Scenario.copy_run (Scenario.broken_answer 503)
             Scenario.tree in
  let res := {| Status := "status"; StatusCode := 503;
                Body := Scenario.body "" (Some "unexpected EOF") |} in
  let run := uploadFile E "/tmp/ocrmypdf-1/scan1.pdf" "http://dav" "u" "p" w in
  run.1
  = (if is_2xx (StatusCode res) then Ret (closed_response res)
     else match (ReadAll (Body res)).2 with
          | None => Ret (closed_response res)
          | Some _ => Fatal
          end)
  /\ (forall e, None = Some e ->
        In (ELog ("Error uploading file: " +:+ e)) (trace run.2))
  /\ (is_2xx (StatusCode res) = false ->
      In (ELog match (ReadAll (Body res)).2 with
               | None => (ReadAll (Body res)).1
               | Some e => e
               end)
         (trace run.2)).
Proof.
  intros w E res run.
  apply (upload_outcome E "/tmp/ocrmypdf-1/scan1.pdf" "http://dav" "u" "p" w
           "%PDF-1.4" res None).
  - reflexivity.
  - reflexivity.
  - reflexivity.
Defined.

(** X3: Whatever [uploadFile] does, it leaves the file system alone; and a
    response it returns is an answer of [client.Do] to the one request it
    sent, handed back with the body closed. *)
Theorem upload_returns_closed E filename url user passwd w r w' :
  uploadFile E filename url user passwd w = (r, w') ->
  fs w' = fs w
  /\ forall res', r = Ret res' ->
       rc_closed (Body res') = true
       /\ exists req res derr,
            In (EHttp req) (trace w')
            /\ env_Do E req = (Some res, derr)
            /\ res' = closed_response res.
Proof.
  intros Hrun. split; [by apply (uploadFile_fs _ _ _ _ _ _ _ _ Hrun) |].
  revert Hrun. run_upload. intros Hrun res' ->.
  repeat (case_match; simplify_eq/=);
    (split; [done |]; eexists _, _, _;
     split; [| split; [eassumption | reflexivity]];
     find_event).
Qed.

Lemma upload_returns_closed_witness :
  let w := {| fs := {[ "/tmp/ocrmypdf-1/scan1.pdf" := NFile "%PDF-1.4" ]};
              trace := [] |} in
  let run := uploadFile Faults.base "/tmp/ocrmypdf-1/scan1.pdf" "http://dav"
               "u" "p" w in
  fs run.2 = fs w
  /\ forall res', run.1 = Ret res' ->
       rc_closed (Body res') = true
       /\ exists req res derr,
            In (EHttp req) (trace run.2)
            /\ env_Do Faults.base req = (Some res, derr)
            /\ res' = closed_response res.
Proof.
  intros w run.
  apply (upload_returns_closed Faults.base "/tmp/ocrmypdf-1/scan1.pdf"
           "http://dav" "u" "p" w run.1 run.2).
  apply surjective_pairing.
Defined.

(** ** Further properties of [processFile] *)

Lemma actions_job_prefix cfg inFile wait d out :
  actions (job_prefix cfg inFile wait d out)
  = (settle wait
     ++ [EMkdirTemp d; EExec (Exec (Ocr cfg)) (ocrArgs cfg inFile d)])%list.
Proof.
  unfold job_prefix. destruct wait, (shlex.Split (Args (Ocr cfg))).2; done.
Qed.

(** X4: When the temp directory cannot be made, the job ends the process at
    once: apart from the settle-wait nothing has happened, the file system
    is as it was, and the error is the last line of the log. *)
Theorem no_tempdir_ends_process E cfg inFile wait w err :
  env_TempDir E (fs w) "/tmp" "ocrmypdf-*" = Err err ->
  exists tr : list Event,
    processFile E cfg inFile wait w
    = (Fatal, {| fs := fs w; trace := trace w ++ tr |})
    /\ actions tr = settle wait
    /\ last tr = Some (ELog err).
Proof.
  intros Htemp. rewrite (job_no_tempdir _ _ _ _ _ _ Htemp).
  eexists. split; [reflexivity |]. by destruct wait.
Qed.

Lemma no_tempdir_ends_process_witness :
  let E := Faults.with_TempDir Faults.base
             (fun _ _ _ => Err "mkdir /tmp/ocrmypdf-1: no space left on device") in
  exists tr : list Event,
    processFile E Scenario.cfg "/scans/scan1.pdf" true Scenario.w0
    = (Fatal, {| fs := fs Scenario.w0; trace := trace Scenario.w0 ++ tr |})
    /\ actions tr = settle true
    /\ last tr = Some (ELog "mkdir /tmp/ocrmypdf-1: no space left on device").
Proof.
  intros E.
  apply (no_tempdir_ends_process E Scenario.cfg "/scans/scan1.pdf" true
           Scenario.w0).
  reflexivity.
Defined.

(** X5: Every run of a job, log lines apart.  A job first waits if it was
    asked to, makes its temp directory and runs the OCR command once.
    What follows depends on how the job ends.  A job that returns has
    removed its temp directory twice, after nothing else (OCR failure),
    after the upload (status outside 2xx), or after the upload and the
    removal of the source (2xx).  A job that ends the process has at most
    opened the output and sent the request.  A job that panics has sent
    the request and removed the temp directory once.  In particular the
    source is never removed before a request was sent. *)
Theorem job_actions E cfg inFile wait w r w' :
  processFile E cfg inFile wait w = (r, w') ->
  exists tr : list Event,
    (trace w' = trace w ++ tr)%list
    /\ ((exists err,
           env_TempDir E (fs w) "/tmp" "ocrmypdf-*" = Err err
           /\ r = Fatal /\ actions tr = settle wait)
        \/ exists (d : string) (post : list Event),
             env_TempDir E (fs w) "/tmp" "ocrmypdf-*" = Ok d
             /\ (actions tr
                 = settle wait
                   ++ [EMkdirTemp d;
                       EExec (Exec (Ocr cfg)) (ocrArgs cfg inFile d)]
                   ++ post)%list
             /\ match r with
                | Ret _ =>
                    post = [ERemoveAll d; ERemoveAll d]
                    \/ exists req,
                         post = [EOpen (tempFileOf d inFile); EHttp req;
                                 ERemove inFile; ERemoveAll d; ERemoveAll d]
                         \/ post = [EOpen (tempFileOf d inFile); EHttp req;
                                    ERemoveAll d; ERemoveAll d]
                | Fatal =>
                    post = [EOpen (tempFileOf d inFile)]
                    \/ exists req,
                         post = [EOpen (tempFileOf d inFile); EHttp req]
                | Panic _ =>
                    exists req,
                      post = [EOpen (tempFileOf d inFile); EHttp req;
                              ERemoveAll d]
                end).
Proof.
  intros Hjob.
  destruct (env_TempDir E (fs w) "/tmp" "ocrmypdf-*") as [d|err] eqn:Htemp.
  2:{ rewrite (job_no_tempdir _ _ _ _ _ _ Htemp) in Hjob. simplify_eq.
      eexists. split; [reflexivity |]. left. exists err.
      by destruct wait. }
  destruct (env_Run E (Exec (Ocr cfg)) (ocrArgs cfg inFile d)
              (<[d := NDir]> (fs w))) as [[fs2 out] [e|]] eqn:Hrun.
  { rewrite (job_ocr_failed _ _ _ _ _ _ _ _ _ Htemp Hrun e eq_refl) in Hjob.
    simplify_eq. eexists. split; [reflexivity |]. right.
    exists d, [ERemoveAll d; ERemoveAll d]. split; [done |].
    split; [| by left].
    by rewrite actions_app, actions_job_prefix, <- app_assoc. }
  destruct (uploadFile E (tempFileOf d inFile) (Url (Server cfg))
              (User (Server cfg)) (Pass (Server cfg))
              {| fs := fs2;
                 trace := trace w ++ job_prefix cfg inFile wait d out
                            ++ [ELog "Job finished successfully."] |})
    as [r3 w3] eqn:Hup.
  destruct (upload_actions _ _ _ _ _ _ _ _ Hup) as (tr3 & Htr3 & Hact3).
  cbn [trace] in Htr3.
  assert (forall tl : list Event,
            (trace w3 ++ tl = trace w ++
               (job_prefix cfg inFile wait d out
                ++ [ELog "Job finished successfully."] ++ tr3 ++ tl))%list)
    as Hsplit.
  { intros tl. rewrite Htr3, <- !app_assoc. reflexivity. }
  assert (forall tl : list Event,
            actions (job_prefix cfg inFile wait d out
                     ++ [ELog "Job finished successfully."] ++ tr3 ++ tl)
            = (settle wait
               ++ [EMkdirTemp d; EExec (Exec (Ocr cfg)) (ocrArgs cfg inFile d)]
               ++ actions tr3 ++ actions tl)%list) as Hact.
  { intros tl.
    rewrite !actions_app, actions_job_prefix, <- !app_assoc. reflexivity. }
  destruct r3 as [res| |msg].
  - destruct Hact3 as [[_ ?] | [req Hreq]]; [done |].
    destruct (is_2xx (StatusCode res)) eqn:Hc.
    + rewrite (job_upload_2xx _ _ _ _ _ _ _ _ _ Htemp Hrun _ _ eq_refl Hup Hc)
        in Hjob.
      simplify_eq. eexists. split; [apply Hsplit |]. right.
      eexists d, _. split; [done |]. split; [rewrite Hact, Hreq; reflexivity |].
      right. exists req. by left.
    + rewrite (job_upload_other _ _ _ _ _ _ _ _ _ Htemp Hrun _ _ eq_refl Hup Hc)
        in Hjob.
      simplify_eq. eexists. split; [apply Hsplit |]. right.
      eexists d, _. split; [done |].
      split; [rewrite Hact, Hreq, actions_app, actions_err_log; reflexivity |].
      right. exists req. by right.
  - rewrite (job_upload_fatal _ _ _ _ _ _ _ _ _ Htemp Hrun _ eq_refl Hup) in Hjob.
    simplify_eq. eexists.
    split; [rewrite <- (app_nil_r (trace w')); apply Hsplit |]. right.
    eexists d, _. split; [done |].
    split; [rewrite Hact, app_nil_r; reflexivity |].
    destruct Hact3 as [[-> _] | [req ->]]; [by left | right; by exists req].
  - destruct Hact3 as [[_ ?] | [req Hreq]]; [done |].
    rewrite (job_upload_panic _ _ _ _ _ _ _ _ _ Htemp Hrun _ _ eq_refl Hup) in Hjob.
    simplify_eq. eexists. split; [apply Hsplit |]. right.
    eexists d, _. split; [done |]. split; [rewrite Hact, Hreq; reflexivity |].
    by exists req.
Qed.

Lemma job_actions_witness :
  let run := processFile Faults.base Scenario.cfg "/scans/scan1.pdf" true
               Scenario.w0 in
  exists tr : list Event,
    (trace run.2 = trace Scenario.w0 ++ tr)%list
    /\ ((exists err,
           env_TempDir Faults.base (fs Scenario.w0) "/tmp" "ocrmypdf-*" = Err err
           /\ run.1 = Fatal /\ actions tr = settle true)
        \/ exists (d : string) (post : list Event),
             env_TempDir Faults.base (fs Scenario.w0) "/tmp" "ocrmypdf-*" = Ok d
             /\ (actions tr
                 = settle true
                   ++ [EMkdirTemp d;
                       EExec (Exec (Ocr Scenario.cfg))
                         (ocrArgs Scenario.cfg "/scans/scan1.pdf" d)]
                   ++ post)%list
             /\ match run.1 with
                | Ret _ =>
                    post = [ERemoveAll d; ERemoveAll d]
                    \/ exists req,
                         post = [EOpen (tempFileOf d "/scans/scan1.pdf");
                                 EHttp req; ERemove "/scans/scan1.pdf";
                                 ERemoveAll d; ERemoveAll d]
                         \/ post = [EOpen (tempFileOf d "/scans/scan1.pdf");
                                    EHttp req; ERemoveAll d; ERemoveAll d]
                | Fatal =>
                    post = [EOpen (tempFileOf d "/scans/scan1.pdf")]
                    \/ exists req,
                         post = [EOpen (tempFileOf d "/scans/scan1.pdf");
                                 EHttp req]
                | Panic _ =>
                    exists req,
                      post = [EOpen (tempFileOf d "/scans/scan1.pdf");
                              EHttp req; ERemoveAll d]
                end).
Proof.
  intros run.
  apply (job_actions Faults.base Scenario.cfg "/scans/scan1.pdf" true
           Scenario.w0 run.1 run.2).
  apply surjective_pairing.
Defined.

(** X6: A job touches the file system only at its temp directory and at its
    source: every other path is, when the job ends, what the OCR run left
    there, however the job ends. *)
Theorem job_frame E cfg inFile wait w d fs2 out oerr p :
  env_TempDir E (fs w) "/tmp" "ocrmypdf-*" = Ok d ->
  env_Run E (Exec (Ocr cfg)) (ocrArgs cfg inFile d) (<[d := NDir]> (fs w))
  = (fs2, out, oerr) ->
  within d p = false ->
  p <> inFile ->
  fs (processFile E cfg inFile wait w).2 !! p = fs2 !! p.
Proof.
  intros Htemp Hrun Hout Hne.
  destruct oerr as [e|].
  { rewrite (job_ocr_failed _ _ _ _ _ _ _ _ _ Htemp Hrun e eq_refl). cbn.
    by rewrite !RemoveAll_other. }
  destruct (uploadFile E (tempFileOf d inFile) (Url (Server cfg))
              (User (Server cfg)) (Pass (Server cfg))
              {| fs := fs2;
                 trace := trace w ++ job_prefix cfg inFile wait d out
                            ++ [ELog "Job finished successfully."] |})
    as [[res| |msg] w3] eqn:Hup;
    pose proof (uploadFile_fs _ _ _ _ _ _ _ _ Hup) as Hfs; cbn in Hfs.
  - destruct (is_2xx (StatusCode res)) eqn:Hc.
    + rewrite (job_upload_2xx _ _ _ _ _ _ _ _ _ Htemp Hrun _ _ eq_refl Hup Hc).
      cbn. rewrite !RemoveAll_other, Remove_other, Hfs; done.
    + rewrite (job_upload_other _ _ _ _ _ _ _ _ _ Htemp Hrun _ _ eq_refl Hup Hc).
      cbn. by rewrite !RemoveAll_other, Hfs.
  - rewrite (job_upload_fatal _ _ _ _ _ _ _ _ _ Htemp Hrun _ eq_refl Hup).
    cbn. by rewrite Hfs.
  - rewrite (job_upload_panic _ _ _ _ _ _ _ _ _ Htemp Hrun _ _ eq_refl Hup).
    cbn. by rewrite RemoveAll_other, Hfs.
Qed.

Lemma job_frame_witness :
  let w := {| fs := {[ "/scans/scan1.pdf" := NFile "%PDF-1.4";
                       "/scans/scan2.pdf" := NFile "%PDF-1.7" ]};
              trace := [] |} in
  fs (processFile Faults.base Scenario.cfg "/scans/scan1.pdf" false w).2
    !! "/scans/scan2.pdf"
  = (<["/tmp/ocrmypdf-1/scan1.pdf" := NFile "%PDF-1.4"]>
       (<["/tmp/ocrmypdf-1" := NDir]> (fs w))) !! "/scans/scan2.pdf".
Proof.
  intros w.
  apply (job_frame Faults.base Scenario.cfg "/scans/scan1.pdf" false w
           "/tmp/ocrmypdf-1" _ "copied" None "/scans/scan2.pdf").
  - reflexivity.
  - vm_compute. reflexivity.
  - reflexivity.
  - discriminate.
Defined.



(** X8: The removal of the source is not checked.  When the source is a
    directory that still has entries, [os.Remove] removes nothing: after a
    2xx answer the job logs the removal and returns as on success, and the
    source is still there. *)
Theorem unremoved_source_goes_unnoticed
    E cfg inFile wait w d fs2 out content res derr child :
  env_TempDir E (fs w) "/tmp" "ocrmypdf-*" = Ok d ->
  within d inFile = false ->
  env_Run E (Exec (Ocr cfg)) (ocrArgs cfg inFile d) (<[d := NDir]> (fs w))
  = (fs2, out, None) ->
  fs2 !! inFile = Some NDir ->
  is_Some (fs2 !! child) ->
  String.prefix (inFile +:+ "/") child = true ->
  fs2 !! tempFileOf d inFile = Some (NFile content) ->
  env_NewRequest E MethodPut
    (Url (Server cfg) +:+ "/" +:+ filepath.Base (tempFileOf d inFile)) = None ->
  env_Do E (putRequest E (tempFileOf d inFile) (Url (Server cfg))
              (User (Server cfg)) (Pass (Server cfg)) content)
  = (Some res, derr) ->
  is_2xx (StatusCode res) = true ->
  (processFile E cfg inFile wait w).1 = Ret tt
  /\ In (ELog ("Removing input: " +:+ inFile))
        (trace (processFile E cfg inFile wait w).2)
  /\ fs (processFile E cfg inFile wait w).2 !! inFile = Some NDir.
Proof.
  intros Htemp Hout Hrun Hsrc [n Hchild] Hpre Hfile Hreq Hdo Hc.
  set (wu := {| fs := fs2;
                trace := trace w ++ job_prefix cfg inFile wait d out
                           ++ [ELog "Job finished successfully."] |}).
  pose proof (upload_2xx E _ _ _ _ wu content Hfile Hreq res derr Hdo Hc)
    as Hup.
  rewrite (job_upload_2xx _ _ _ _ _ _ _ _ _ Htemp Hrun _ _ eq_refl Hup Hc).
  cbn. split; [done |]. split; [find_event |].
  rewrite !RemoveAll_other by done.
  unfold Remove. rewrite Hsrc.
  assert (has_child inFile fs2 = true) as ->; [| done].
  unfold has_child. apply existsb_exists. exists child. split; [| done].
  apply in_map_iff. exists (child, n). split; [done |].
  apply list_elem_of_In, elem_of_map_to_list. done.
Qed.

Lemma unremoved_source_goes_unnoticed_witness :
  let E := Scenario.env Faults.blind_run (Scenario.answer 200) Scenario.tree in
  let w := {| fs := {[ "/scans/batch" := NDir;
                       "/scans/batch/p1.png" := NFile "PNG" ]};
              trace := [] |} in
  let run := processFile E Scenario.cfg "/scans/batch" true w in
  run.1 = Ret tt
  /\ In (ELog ("Removing input: " +:+ "/scans/batch")) (trace run.2)
  /\ fs run.2 !! "/scans/batch" = Some NDir.
Proof.
  intros E w run.
  apply (unremoved_source_goes_unnoticed E Scenario.cfg "/scans/batch" true w
           "/tmp/ocrmypdf-1"
           (<["/tmp/ocrmypdf-1/batch" := NFile "%PDF-1.4"]>
              (<["/tmp/ocrmypdf-1" := NDir]> (fs w)))
           "" "%PDF-1.4"
           {| Status := "status"; StatusCode := 200;
              Body := Scenario.body "reply" None |} None
           "/scans/batch/p1.png").
  - reflexivity.
  - reflexivity.
  - vm_compute. reflexivity.
  - vm_compute. reflexivity.
  - vm_compute. eauto.
  - reflexivity.
  - vm_compute. reflexivity.
  - reflexivity.
  - reflexivity.
  - reflexivity.
Defined.

(** ** Further properties of [main] and of the scan *)

(** X9: When the environment cannot be read, the URL template does not parse
    or does not execute, or the watched path cannot be accessed or is not
    a directory, [main] ends the process before anything else happens: no
    file is processed, no watch is set up, only log lines are written. *)
Theorem main_fails_fast E w :
  (exists err, env_Process E (defaults E) = Err err)
  \/ (exists c,
        env_Process E (defaults E) = Ok c
        /\ (is_Some (env_TemplateParse E (Url (Server c)))
            \/ (exists err,
                  env_TemplateExecute E (Url (Server c)) (Server c) = Err err)
            \/ (exists err, env_Stat E (Path (Watcher c)) = Err err)
            \/ (exists info,
                  env_Stat E (Path (Watcher c)) = Ok info
                  /\ IsDir info = false))) ->
  exists tr : list Event,
    main_startup E w = (Fatal, {| fs := fs w; trace := trace w ++ tr |})
    /\ actions tr = [].
Proof.
  unfold main_startup, readEnv, defaults, log.Fatal, log.Println, emit,
    mbind, M_bind, mret, M_ret.
  intros [[err Hp] | (c & Hp & Hc)]; rewrite Hp; cbn.
  { exists [ELog err]. done. }
  destruct (env_TemplateParse E (Url (Server c))) as [perr|] eqn:Hparse.
  { eexists [_]. done. }
  destruct (env_TemplateExecute E (Url (Server c)) (Server c))
    as [tpl|xerr] eqn:Hexec; cbn.
  2:{ eexists [_]. done. }
  destruct Hc as [[? [=]] | [[? [=]] | Hstat]].
  destruct Hstat as [[serr Hstat] | (info & Hstat & Hdir)];
    rewrite Hstat; cbn; [| rewrite Hdir; cbn];
    (eexists [_; _]; split; [same_world | done]).
Qed.

Lemma main_fails_fast_witness :
  let E := Faults.with_Stat Faults.base
             (fun _ => Ok {| Name := "scans"; IsDir := false |}) in
  exists tr : list Event,
    main_startup E Scenario.w0
    = (Fatal, {| fs := fs Scenario.w0; trace := trace Scenario.w0 ++ tr |})
    /\ actions tr = [].
Proof.
  intros E. apply (main_fails_fast E Scenario.w0).
  right. exists Scenario.startup_cfg. split; [reflexivity |].
  right. right. right. eexists. split; reflexivity.
Defined.

(** X10: When [main] reaches its event loop, the configuration it runs with is
    the one [envconfig] filled in from the defaults (the executable found
    for [ocrmypdf], the fixed argument string), with the URL replaced by
    the executed template; the watched path is a directory, and the watch
    on it for close-write and moved-to events is in place. *)
Theorem main_loop_config E w cfg w' :
  main_startup E w = (Ret cfg, w') ->
  exists c tpl info,
    env_Process E (defaults E) = Ok c
    /\ env_TemplateParse E (Url (Server c)) = None
    /\ env_TemplateExecute E (Url (Server c)) (Server c) = Ok tpl
    /\ cfg = resolved c tpl
    /\ env_Stat E (Path (Watcher cfg)) = Ok info
    /\ IsDir info = true
    /\ env_Watch E (Path (Watcher cfg)) [InCloseWrite; InMovedTo] = None.
Proof.
  unfold main_startup, readEnv, defaults, resolved, log.Fatal, log.Println,
    emit, mbind, M_bind, mret, M_ret.
  intros Hmain.
  destruct (env_Process E _) as [c|err] eqn:Hp; [| done].
  destruct (env_TemplateParse E _) eqn:Hparse; [done |].
  destruct (env_TemplateExecute E _ _) as [tpl|err] eqn:Hexec; [| done].
  cbn in Hmain.
  destruct (env_Stat E _) as [info|err] eqn:Hstat; [| done].
  destruct (IsDir info) eqn:Hdir; cbn in Hmain; [| done].
  match type of Hmain with
  | context [processDir E ?c ?W] =>
      destruct (processDir E c W) as [[[]| |msg] w2]; [| done..]
  end.
  cbn in Hmain. destruct (env_Watch E _ _) eqn:Hwatch; [done |].
  injection Hmain as <- <-. by exists c, tpl, info.
Qed.

Lemma main_loop_config_witness :
  exists c tpl info,
    env_Process Faults.base (defaults Faults.base) = Ok c
    /\ env_TemplateParse Faults.base (Url (Server c)) = None
    /\ env_TemplateExecute Faults.base (Url (Server c)) (Server c) = Ok tpl
    /\ Scenario.startup_cfg = resolved c tpl
    /\ env_Stat Faults.base (Path (Watcher Scenario.startup_cfg)) = Ok info
    /\ IsDir info = true
    /\ env_Watch Faults.base (Path (Watcher Scenario.startup_cfg))
         [InCloseWrite; InMovedTo] = None.
Proof.
  apply (main_loop_config Faults.base Scenario.w0 Scenario.startup_cfg
           (main_startup Faults.base Scenario.w0).2).
  vm_compute. reflexivity.
Defined.

(** X11: What the scan does decides how [main] goes on.  A scan that a job
    ended (by [log.Fatal] or by a panic) ends [main] in the same way, in
    the world the job left: no watch is ever set up.  After a scan that
    returned, a watch that cannot be set up ends the process: the files
    found at start-up have been processed, those arriving later never
    will be. *)
Theorem main_after_scan E w c tpl info r w2 :
  env_Process E (defaults E) = Ok c ->
  env_TemplateParse E (Url (Server c)) = None ->
  env_TemplateExecute E (Url (Server c)) (Server c) = Ok tpl ->
  env_Stat E (Path (Watcher c)) = Ok info ->
  IsDir info = true ->
  processDir E (resolved c tpl)
    {| fs := fs w;
       trace := trace w ++ [ELog ("Upload-URL: " +:+ tpl);
                            ELog "Processing old files first"] |}
  = (r, w2) ->
  (r = Fatal -> main_startup E w = (Fatal, w2))
  /\ (forall msg, r = Panic msg -> main_startup E w = (Panic msg, w2))
  /\ (forall err,
        r = Ret tt ->
        env_Watch E (Path (Watcher c)) [InCloseWrite; InMovedTo] = Some err ->
        main_startup E w
        = (Fatal,
           {| fs := fs w2;
              trace := trace w2 ++
                [ELog ("Watching " +:+ Path (Watcher c));
                 EWatch (Path (Watcher c)) [InCloseWrite; InMovedTo];
                 ELog err] |})).
Proof.
  intros Hp Hparse Hexec Hstat Hdir Hscan.
  unfold main_startup, readEnv, log.Fatal, log.Println, emit,
    mbind, M_bind, mret, M_ret.
  unfold defaults in Hp. rewrite Hp. cbn. rewrite Hparse, Hexec. cbn.
  rewrite Hstat, Hdir. cbn.
  unfold resolved in Hscan.
  match goal with
  | |- context [processDir E ?c' ?W] =>
      replace (processDir E c' W) with (r, w2)
        by (rewrite <- Hscan; f_equal; same_world)
  end.
  split; [by intros -> |]. split; [by intros msg -> |].
  intros err -> Hwatch. cbn. rewrite Hwatch. cbn. same_world.
Qed.

Lemma main_after_scan_witness :
  let E := Faults.with_Watch Faults.base
             (fun _ _ => Some "inotify: too many open files") in
  let w1 := {| fs := fs Scenario.w0;
               trace := trace Scenario.w0
                 ++ [ELog ("Upload-URL: " +:+ "http://dav/remote.php/u");
                     ELog "Processing old files first"] |} in
  let r := (processDir E (resolved Scenario.startup_cfg "http://dav/remote.php/u") w1).1 in
  let w2 := (processDir E (resolved Scenario.startup_cfg "http://dav/remote.php/u") w1).2 in
  (r = Fatal -> main_startup E Scenario.w0 = (Fatal, w2))
  /\ (forall msg, r = Panic msg -> main_startup E Scenario.w0 = (Panic msg, w2))
  /\ (forall err,
        r = Ret tt ->
        env_Watch E (Path (Watcher Scenario.startup_cfg)) [InCloseWrite; InMovedTo]
        = Some err ->
        main_startup E Scenario.w0
        = (Fatal,
           {| fs := fs w2;
              trace := trace w2 ++
                [ELog ("Watching " +:+ Path (Watcher Scenario.startup_cfg));
                 EWatch (Path (Watcher Scenario.startup_cfg)) [InCloseWrite; InMovedTo];
                 ELog err] |})).
Proof.
  intros E w1 r w2.
  apply (main_after_scan E Scenario.w0 Scenario.startup_cfg "http://dav/remote.php/u"
           {| Name := "scans"; IsDir := true |} r w2).
  - reflexivity.
  - reflexivity.
  - reflexivity.
  - reflexivity.
  - reflexivity.
  - apply surjective_pairing.
Defined.

Lemma lifecycle_job_prefix cfg inFile wait d out :
  List.filter is_lifecycle_event (job_prefix cfg inFile wait d out)
  = [EMkdirTemp d; ocr_command cfg inFile d].
Proof.
  unfold job_prefix. destruct wait, (shlex.Split (Args (Ocr cfg))).2; done.
Qed.

(** A job that returns has made one temp directory, run one command, the
    OCR command for its source with its output in that directory, and
    removed that directory. *)
Lemma returned_job_lifecycle E cfg inFile wait w w' :
  processFile E cfg inFile wait w = (Ret tt, w') ->
  exists (d : string) (tr : list Event),
    env_TempDir E (fs w) "/tmp" "ocrmypdf-*" = Ok d
    /\ (trace w' = trace w ++ tr)%list
    /\ List.filter is_lifecycle_event tr = job_lifecycle cfg inFile d.
Proof.
  intros Hjob.
  destruct (env_TempDir E (fs w) "/tmp" "ocrmypdf-*") as [d|err] eqn:Htemp.
  2:{ by rewrite (job_no_tempdir _ _ _ _ _ _ Htemp) in Hjob. }
  exists d.
  destruct (env_Run E (Exec (Ocr cfg)) (ocrArgs cfg inFile d)
              (<[d := NDir]> (fs w))) as [[fs2 out] [e|]] eqn:Hrun.
  { rewrite (job_ocr_failed _ _ _ _ _ _ _ _ _ Htemp Hrun e eq_refl) in Hjob.
    simplify_eq. eexists. split; [done |]. split; [reflexivity |].
    by rewrite List.filter_app, lifecycle_job_prefix. }
  destruct (uploadFile E (tempFileOf d inFile) (Url (Server cfg))
              (User (Server cfg)) (Pass (Server cfg))
              {| fs := fs2;
                 trace := trace w ++ job_prefix cfg inFile wait d out
                            ++ [ELog "Job finished successfully."] |})
    as [[res| |msg] w3] eqn:Hup.
  2:{ by rewrite (job_upload_fatal _ _ _ _ _ _ _ _ _ Htemp Hrun _ eq_refl Hup)
        in Hjob. }
  2:{ by rewrite (job_upload_panic _ _ _ _ _ _ _ _ _ Htemp Hrun _ _ eq_refl Hup)
        in Hjob. }
  destruct (upload_trace _ _ _ _ _ _ _ _
              (fun e => is_lifecycle_event e = false) _ _
              (fun _ => eq_refl) (fun _ => eq_refl) (fun _ => eq_refl) Hup)
    as (_ & tr3 & Htr3 & Hall3).
  destruct (is_2xx (StatusCode res)) eqn:Hc.
  - rewrite (job_upload_2xx _ _ _ _ _ _ _ _ _ Htemp Hrun _ _ eq_refl Hup Hc)
      in Hjob.
    simplify_eq.
    exists (job_prefix cfg inFile wait d out
            ++ [ELog "Job finished successfully."] ++ tr3
            ++ [ELog ("Removing input: " +:+ inFile); ERemove inFile;
                ELog ("Removing temp direcotory: " +:+ d);
                ERemoveAll d; ERemoveAll d])%list.
    split; [done |].
    split; [cbn [trace]; rewrite Htr3, <- !app_assoc; reflexivity |].
    rewrite !List.filter_app, lifecycle_job_prefix, (filter_none _ _ Hall3).
    reflexivity.
  - rewrite (job_upload_other _ _ _ _ _ _ _ _ _ Htemp Hrun _ _ eq_refl Hup Hc)
      in Hjob.
    simplify_eq.
    exists (job_prefix cfg inFile wait d out
            ++ [ELog "Job finished successfully."] ++ tr3
            ++ err_log "" (ReadAll (Body res)).2
            ++ [ELog (ReadAll (Body res)).1;
                ELog ("Removing temp direcotory: " +:+ d);
                ERemoveAll d; ERemoveAll d])%list.
    split; [done |].
    split; [cbn [trace]; rewrite Htr3, <- !app_assoc; reflexivity |].
    rewrite !List.filter_app, lifecycle_job_prefix, (filter_none _ _ Hall3).
    by destruct (ReadAll (Body res)).2.
Qed.

Lemma run_visits_lifecycle E cfg l :
  forall w w',
    run_visits E cfg l w = (Ret tt, w') ->
    exists (tr : list Event) (ds : list string),
      (trace w' = trace w ++ tr)%list
      /\ length ds = length (job_paths cfg l)
      /\ List.filter is_lifecycle_event tr
         = concat (zip_with (job_lifecycle cfg) (job_paths cfg l) ds).
Proof.
  induction l as [|[name|readErr|err] l IH]; intros w w'; cbn [run_visits job_paths].
  - intros [= <-]. exists [], []. by rewrite app_nil_r.
  - unfold mbind, M_bind.
    destruct (processFile E cfg _ false w) as [[[]| |msg] w1] eqn:Hjob;
      [| done..].
    intros Hrest.
    destruct (returned_job_lifecycle _ _ _ _ _ _ Hjob)
      as (d & tr1 & _ & Htr1 & Hex1).
    destruct (IH _ _ Hrest) as (tr2 & ds & Htr2 & Hlen & Hex2).
    exists (tr1 ++ tr2)%list, (d :: ds).
    split; [by rewrite Htr2, Htr1, app_assoc |].
    split; [cbn; by rewrite Hlen |].
    rewrite List.filter_app, Hex1, Hex2. done.
  - unfold mbind, M_bind.
    destruct (on_err readErr log.Println w) as [[[]| |msg] w1] eqn:Hlog;
      [| done..].
    intros Hrest. destruct (IH _ _ Hrest) as (tr2 & ds & Htr2 & Hlen & Hex2).
    destruct readErr as [e|]; cbv in Hlog; simplify_eq.
    + exists (ELog e :: tr2), ds.
      split; [rewrite Htr2; cbn; by rewrite <- app_assoc |]. done.
    + by exists tr2, ds.
  - unfold mbind, M_bind. cbn. done.
Qed.

(** X12: A scan that returns has run, in the order of the walk, one job
    for each non-directory entry it found, and each job kept to a temp
    directory of its own: [ioutil.TempDir] made the directory, the one
    command of the job is the OCR command for the watched path joined by
    a slash with the name of the entry, with its output in that
    directory, and that directory is what the job removed.  No other
    directory is made, no other command run, nothing else removed with
    [os.RemoveAll]. *)
Theorem scan_commands E cfg w w' :
  processDir E cfg w = (Ret tt, w') ->
  exists (tr : list Event) (ds : list string),
    (trace w' = trace w ++ tr)%list
    /\ length ds
       = length (job_paths cfg (visits (env_Walk E (Path (Watcher cfg)))))
    /\ List.filter is_lifecycle_event tr
       = concat
           (zip_with (job_lifecycle cfg)
              (job_paths cfg (visits (env_Walk E (Path (Watcher cfg))))) ds).
Proof.
  rewrite processDir_visits. apply run_visits_lifecycle.
Qed.

Lemma scan_commands_witness :
  let E := Scenario.env Scenario.failing_run (Scenario.answer 201)
             Scenario.tree in
  let w' := (processDir E Scenario.cfg Scenario.w0).2 in
  exists (tr : list Event) (ds : list string),
    (trace w' = trace Scenario.w0 ++ tr)%list
    /\ length ds
       = length (job_paths Scenario.cfg
                   (visits (env_Walk E (Path (Watcher Scenario.cfg)))))
    /\ List.filter is_lifecycle_event tr
       = concat
           (zip_with (job_lifecycle Scenario.cfg)
              (job_paths Scenario.cfg
                 (visits (env_Walk E (Path (Watcher Scenario.cfg))))) ds).
Proof.
  intros E w'.
  apply (scan_commands E Scenario.cfg Scenario.w0 w').
  vm_compute. reflexivity.
Defined.

(** ** The paths and the argument string *)

Lemma chars_str l : chars (str l) = l.
Proof. apply list_ascii_of_string_of_list_ascii. Qed.

Lemma str_chars s : str (chars s) = s.
Proof. apply string_of_list_ascii_of_string. Qed.

Lemma chars_app a b : chars (a +:+ b) = (chars a ++ chars b)%list.
Proof.
  induction a as [|c a IH]; [reflexivity |].
  change (String c a +:+ b) with (String c (a +:+ b)).
  unfold chars in *. cbn [list_ascii_of_string app]. by rewrite IH.
Qed.

Lemma take_elem_no_sep l : existsb is_sep (filepath.take_elem l) = false.
Proof.
  induction l as [|c l IH]; cbn; [done |].
  destruct (is_sep c) eqn:Hc; cbn; [done | by rewrite Hc].
Qed.

Lemma existsb_rev {A} (f : A -> bool) (l : list A) :
  existsb f (rev l) = existsb f l.
Proof.
  induction l as [|x l IH]; cbn; [done |].
  rewrite existsb_app, IH. cbn. by destruct (f x), (existsb f l).
Qed.

(** X13: [filepath.Base] never returns the empty string, and what it returns
    has no separator in it unless it is the root: the name under which a
    file is uploaded is one path element. *)
Theorem Base_is_one_element path :
  filepath.Base path <> ""
  /\ (filepath.Base path = "/"
      \/ existsb is_sep (chars (filepath.Base path)) = false).
Proof.
  unfold filepath.Base. destruct path as [|c path]; [by split; [| right] |].
  pose proof (take_elem_no_sep
                (filepath.drop_seps (rev (chars (String c path))))) as Hno.
  rewrite <- existsb_rev in Hno.
  destruct (rev (filepath.take_elem _)) as [|e es]; [by split; [| left] |].
  split; [done |]. right. by rewrite chars_str.
Qed.

Lemma elements_last cur seg :
  existsb is_sep seg = false ->
  filepath.elements cur seg = [str (rev cur ++ seg)].
Proof.
  revert cur. induction seg as [|c seg IH]; intros cur Hno; cbn.
  - by rewrite app_nil_r.
  - cbn in Hno. apply orb_false_iff in Hno as [Hc Hseg]. rewrite Hc.
    rewrite IH by done. cbn. by rewrite <- app_assoc.
Qed.

Lemma elements_next cur seg rest :
  existsb is_sep seg = false ->
  filepath.elements cur (seg ++ "/"%char :: rest)
  = str (rev cur ++ seg) :: filepath.elements [] rest.
Proof.
  revert cur. induction seg as [|c seg IH]; intros cur Hno; cbn.
  - by rewrite app_nil_r.
  - cbn in Hno. apply orb_false_iff in Hno as [Hc Hseg]. rewrite Hc.
    rewrite IH by done. cbn. by rewrite <- app_assoc.
Qed.

Lemma plain_name_spec s :
  plain_name s = true ->
  String.eqb s "" = false /\ String.eqb s "." = false
  /\ String.eqb s ".." = false /\ existsb is_sep (chars s) = false.
Proof.
  unfold plain_name. rewrite !andb_true_iff, !negb_true_iff. tauto.
Qed.

Lemma prefix_append a b : String.prefix a (a +:+ b) = true.
Proof.
  induction a as [|c a IH]; [by destruct b |].
  change (String c a +:+ b) with (String c (a +:+ b)). cbn.
  by destruct (ascii_dec c c).
Qed.

Lemma append_assoc a b c : (a +:+ b) +:+ c = a +:+ (b +:+ c).
Proof.
  induction a as [|x a IH]; [done |].
  change (String x a +:+ b) with (String x (a +:+ b)).
  change (String x (a +:+ b) +:+ c) with (String x ((a +:+ b) +:+ c)).
  by rewrite IH.
Qed.

(** X14: For a temp directory [/tmp/x] and a source whose base name names an
    entry, the temp output path is the temp directory, a slash, and the
    base name of the source: the OCR output is a file directly inside the
    job's own temp directory, which the removal of the directory takes
    with it. *)
Theorem temp_output_inside x inFile (fs : FS) :
  plain_name x = true ->
  plain_name (filepath.Base inFile) = true ->
  tempFileOf ("/tmp/" +:+ x) inFile
  = "/tmp/" +:+ x +:+ "/" +:+ filepath.Base inFile
  /\ within ("/tmp/" +:+ x) (tempFileOf ("/tmp/" +:+ x) inFile) = true
  /\ RemoveAll ("/tmp/" +:+ x) fs !! tempFileOf ("/tmp/" +:+ x) inFile = None.
Proof.
  intros Hx Hb.
  apply plain_name_spec in Hx as (Hx1 & Hx2 & Hx3 & Hx4).
  apply plain_name_spec in Hb as (Hb1 & Hb2 & Hb3 & Hb4).
  set (b := filepath.Base inFile) in *.
  assert (tempFileOf ("/tmp/" +:+ x) inFile = "/tmp/" +:+ x +:+ "/" +:+ b)
    as Heq.
  { unfold tempFileOf, filepath.Join. fold b.
    change (String.eqb ("/tmp/" +:+ x) "") with false. cbv iota.
    unfold filepath.Clean. rewrite !chars_app.
    change (chars "/tmp/") with ("/"%char :: chars "tmp" ++ ["/"%char])%list.
    change (chars "/") with ["/"%char].
    cbn [app]. rewrite <- !app_assoc. cbn [app].
    change (is_sep "/") with true. cbv iota.
    rewrite (elements_next [] [] _ eq_refl : filepath.elements [] ("/"%char :: _) = _).
    rewrite (elements_next [] (chars "tmp")) by done.
    rewrite (elements_next [] (chars x)) by done.
    rewrite (elements_last [] (chars b)) by done.
    cbn [rev app]. rewrite !str_chars.
    change (str []) with "". cbn [fold_left].
    unfold filepath.clean_elem at 4. cbn [String.eqb].
    unfold filepath.clean_elem at 3. cbn.
    unfold filepath.clean_elem at 2. rewrite Hx1, Hx2, Hx3.
    unfold filepath.clean_elem. rewrite Hb1, Hb2, Hb3.
    reflexivity. }
  split; [done |].
  assert (within ("/tmp/" +:+ x) (tempFileOf ("/tmp/" +:+ x) inFile) = true)
    as Hin.
  { rewrite Heq. unfold within.
    replace ("/tmp/" +:+ x +:+ "/" +:+ b)
      with ((("/tmp/" +:+ x) +:+ "/") +:+ b) by (by rewrite !append_assoc).
    rewrite prefix_append. apply orb_true_r. }
  split; [done | by apply RemoveAll_gone].
Qed.

Lemma temp_output_inside_witness :
  tempFileOf ("/tmp/" +:+ "ocrmypdf-1") "/scans/scan1.pdf"
  = "/tmp/" +:+ "ocrmypdf-1" +:+ "/" +:+ filepath.Base "/scans/scan1.pdf"
  /\ within ("/tmp/" +:+ "ocrmypdf-1")
       (tempFileOf ("/tmp/" +:+ "ocrmypdf-1") "/scans/scan1.pdf") = true
  /\ RemoveAll ("/tmp/" +:+ "ocrmypdf-1")
       (<["/tmp/ocrmypdf-1/scan1.pdf" := NFile "%PDF-1.4"]>
          (<["/tmp/ocrmypdf-1" := NDir]> (fs Scenario.w0)))
     !! tempFileOf ("/tmp/" +:+ "ocrmypdf-1") "/scans/scan1.pdf" = None.
Proof.
  apply (temp_output_inside "ocrmypdf-1" "/scans/scan1.pdf").
  - reflexivity.
  - reflexivity.
Defined.







Lemma unquoted_loop input :
  forall st ty value subs,
    existsb is_quoting_rune input = false ->
    st = shlex.startState
    \/ (st = shlex.inWordState /\ ty = shlex.WordToken)
    \/ (st = shlex.commentState /\ ty = shlex.CommentToken) ->
    (shlex.splitLoop st ty value subs input).2 = None.
Proof.
  induction input as [|c input IH]; intros st ty value subs Hq Hst.
  - destruct Hst as [-> | [[-> ->] | [-> ->]]]; reflexivity.
  - cbn in Hq. apply orb_false_iff in Hq as [Hc Hq].
    unfold is_quoting_rune in Hc. cbn [shlex.splitLoop].
    unfold shlex.scanStep, shlex.nextClass.
    destruct Hst as [-> | [[-> ->] | [-> ->]]];
      destruct (shlex.ClassifyRune c); try discriminate;
      cbn [shlex.lexerNext]; try reflexivity;
      try (destruct (Ascii.eqb c lf); cbn [shlex.lexerNext]);
      apply IH; auto.
Qed.

(** X16: [shlex.Split] fails only on quoting: an argument string without
    quotes and backslashes always splits without error, whatever spaces,
    tabs, line ends and comments it has. *)
Theorem unquoted_args_parse s :
  unquoted s = true -> (shlex.Split s).2 = None.
Proof.
  unfold unquoted. intros Hq%negb_true_iff.
  unfold shlex.Split. apply unquoted_loop; auto.
Qed.

Lemma unquoted_args_parse_witness :
  (shlex.Split "  -l  eng+deu --clean # no quoting here").2 = None.
Proof.
  apply (unquoted_args_parse "  -l  eng+deu --clean # no quoting here").
  reflexivity.
Defined.

Lemma run_visits_end E cfg l :
  forall w r w',
    run_visits E cfg l w = (r, w') ->
    r <> Ret tt ->
    (exists name w1,
       In (VJob name) l
       /\ (processFile E cfg (Path (Watcher cfg) +:+ "/" +:+ name) false w1).1
          = r)
    \/ (exists err,
          In (VNil err) l
          /\ r = Panic "invalid memory address or nil pointer dereference").
Proof.
  induction l as [|[name|readErr|err] l IH]; intros w r w';
    cbn [run_visits]; unfold mbind, M_bind.
  - intros [= <- <-]. done.
  - destruct (processFile E cfg _ false w) as [[[]| |msg] w1] eqn:Hjob.
    + intros Hrest Hr. destruct (IH _ _ _ Hrest Hr)
        as [(n & w2 & Hin & Hn) | (e & Hin & He)].
      * left. exists n, w2. split; [by right | done].
      * right. exists e. split; [by right | done].
    + intros [= <- <-] _. left. exists name, w.
      split; [by left | by rewrite Hjob].
    + intros [= <- <-] _. left. exists name, w.
      split; [by left | by rewrite Hjob].
  - destruct readErr as [e|]; cbn.
    + intros Hrest Hr. destruct (IH _ _ _ Hrest Hr)
        as [(n & w2 & Hin & Hn) | (e' & Hin & He)].
      * left. exists n, w2. split; [by right | done].
      * right. exists e'. split; [by right | done].
    + intros Hrest Hr. destruct (IH _ _ _ Hrest Hr)
        as [(n & w2 & Hin & Hn) | (e' & Hin & He)].
      * left. exists n, w2. split; [by right | done].
      * right. exists e'. split; [by right | done].
  - cbn. intros [= <- <-] _. right. exists err. split; [by left | done].
Qed.

(** X17: The scan ends the process in two ways only: through one of its
    jobs, which then ended in the same way, or through the nil
    dereference on an entry whose [Lstat] failed.  A directory that
    cannot be read is never the end of the scan. *)
Theorem scan_end_causes E cfg w r w' :
  processDir E cfg w = (r, w') ->
  r <> Ret tt ->
  (exists name w1,
     In (VJob name) (visits (env_Walk E (Path (Watcher cfg))))
     /\ (processFile E cfg (Path (Watcher cfg) +:+ "/" +:+ name) false w1).1 = r)
  \/ (exists err,
        In (VNil err) (visits (env_Walk E (Path (Watcher cfg))))
        /\ r = Panic "invalid memory address or nil pointer dereference").
Proof.
  rewrite processDir_visits. apply run_visits_end.
Qed.

Lemma scan_end_causes_witness :
  let E := Scenario.env Scenario.silent_run (Scenario.answer 201)
             Scenario.tree in
  let r := (processDir E Scenario.cfg Scenario.w0).1 in
  (exists name w1,
     In (VJob name) (visits (env_Walk E (Path (Watcher Scenario.cfg))))
     /\ (processFile E Scenario.cfg
           (Path (Watcher Scenario.cfg) +:+ "/" +:+ name) false w1).1 = r)
  \/ (exists err,
        In (VNil err) (visits (env_Walk E (Path (Watcher Scenario.cfg))))
        /\ r = Panic "invalid memory address or nil pointer dereference").
Proof.
  intros E r.
  apply (scan_end_causes E Scenario.cfg Scenario.w0 r
           (processDir E Scenario.cfg Scenario.w0).2).
  - apply surjective_pairing.
  - vm_compute. discriminate.
Defined.
